(** * Access-Unlocked: facility store, proximity search and OSM ingestion

    A shallow embedding of the backend services of the repository

    - [src/types]                      the data model,
    - [src/services/osmService.ts]     rate gate, fetch, tag normaliser, import,
    - [src/services/facilityService.ts] the store operations (SQL over PostGIS),
    - [src/routes/facilities.ts]       the [/nearby] and [/:id] entry points,
    - [src/routes/osm.ts]              the [/osm/import] and [/osm/sync] entry points,
    - [scripts/init-db.sql]            the schema the store operations run on,

    followed by the properties of the specification stated against it.

    Conventions.  JavaScript strings are [string]s, one [ascii] per character.
    Finite JavaScript numbers are exact rationals ([Q], the rounding of
    doubles is not modelled); [NaN] and the infinities are explicit where the
    code can produce them.  [Record<string, string>] objects are
    [gmap string string].  An optional field ([x?: T]) or a nullable column is
    an [option].  A function that can throw returns a sum, the error on the
    left.  Asynchronous functions are run to completion in state-passing
    style, except for the rate gate, whose interleavings are modelled by an
    explicit scheduler.  What the environment decides (the provider's
    answers, generated ids, timestamps, PostGIS's distance) is a [Variable]
    of the section that uses it. *)

From Stdlib Require Import ZArith QArith Qabs String Ascii List Lia Sorted.
From Stdlib Require Qcanon.
From stdpp Require Import base gmap strings list pretty.

Open Scope string_scope.
Open Scope Z_scope.

(* ================================================================== *)
(** * JavaScript values *)
(* ================================================================== *)

Module JS.

(** A [number]: [NaN], an infinity, or a finite value. *)
Inductive number : Type :=
| NaN
| Infinity (negative : bool)
| Num (q : Q).

(** [a < b]: false as soon as an operand is [NaN]. *)
Definition lt (a b : number) : bool :=
  match a, b with
  | NaN, _ | _, NaN => false
  | Infinity true, Infinity true => false
  | Infinity true, _ => true
  | _, Infinity true => false
  | Infinity false, _ => false
  | _, Infinity false => true
  | Num x, Num y => negb (Qle_bool y x)
  end.

Definition isNaN (a : number) : bool :=
  match a with
  | NaN => true
  | _ => false
  end.

(** [a || b] on numbers: [NaN] and zero are falsy. *)
Definition or_number (a : option number) (b : number) : number :=
  match a with
  | Some (Num q) => if Qeq_bool q 0 then b else Num q
  | Some (Infinity s) => Infinity s
  | Some NaN | None => b
  end.

(** Truthiness of a [string | undefined] value: [undefined] and the empty
    string are falsy. *)
Definition truthy (o : option string) : bool :=
  match o with
  | Some s => negb (String.eqb s "")
  | None => false
  end.

(** [a || b] on [string | undefined] operands. *)
Definition or (a b : option string) : option string :=
  if truthy a then a else b.

(** [o === v] for a tag value [o] and a string literal [v]. *)
Definition strict_eq (o : option string) (v : string) : bool :=
  match o with
  | Some s => String.eqb s v
  | None => false
  end.

(** [c.toUpperCase()] on a one-character string (ASCII letters). *)
Definition toUpperCase (c : ascii) : ascii :=
  let n := nat_of_ascii c in
  if ((97 <=? n) && (n <=? 122))%nat then ascii_of_nat (n - 32) else c.

(** ** Numeric parsing *)

Definition is_digit (c : ascii) : bool :=
  let n := nat_of_ascii c in ((48 <=? n) && (n <=? 57))%nat.

Definition digit_value (c : ascii) : Z := Z.of_nat (nat_of_ascii c) - 48.

(** Value of a hexadecimal digit, if [c] is one. *)
Definition hex_value (c : ascii) : option Z :=
  let n := nat_of_ascii c in
  if ((48 <=? n) && (n <=? 57))%nat then Some (Z.of_nat n - 48)
  else if ((97 <=? n) && (n <=? 102))%nat then Some (Z.of_nat n - 87)
  else if ((65 <=? n) && (n <=? 70))%nat then Some (Z.of_nat n - 55)
  else None.

(** White space skipped by [parseInt] and [parseFloat]. *)
Definition is_white_space (c : ascii) : bool :=
  let n := nat_of_ascii c in
  ((9 <=? n) && (n <=? 13) || (n =? 32) || (n =? 160))%nat.

Fixpoint trim_start (l : list ascii) : list ascii :=
  match l with
  | c :: l' => if is_white_space c then trim_start l' else l
  | [] => []
  end.

(** An optional sign: whether it is [-], and the rest. *)
Definition sign (l : list ascii) : bool * list ascii :=
  match l with
  | "-"%char :: l' => (true, l')
  | "+"%char :: l' => (false, l')
  | _ => (false, l)
  end.

(** The longest prefix of decimal digits, and the rest. *)
Fixpoint digits (l : list ascii) : list ascii * list ascii :=
  match l with
  | c :: l' =>
      if is_digit c then let '(ds, rest) := digits l' in (c :: ds, rest) else ([], l)
  | [] => ([], [])
  end.

Definition decimal_value (ds : list ascii) : Z :=
  fold_left (fun acc c => 10 * acc + digit_value c) ds 0.

(** The longest prefix of hexadecimal digits, as their values. *)
Fixpoint hex_digits (l : list ascii) : list Z :=
  match l with
  | c :: l' =>
      match hex_value c with
      | Some v => v :: hex_digits l'
      | None => []
      end
  | [] => []
  end.

Definition signed (negative : bool) (z : Z) : Z := if negative then - z else z.

(** [parseInt(s)] without a radix: white space, a sign, then hexadecimal
    digits after [0x]/[0X] and decimal digits otherwise; [NaN] when there is
    no digit. *)
Definition parseInt (s : string) : number :=
  let '(negative, l) := sign (trim_start (list_ascii_of_string s)) in
  match l with
  | "0"%char :: ("x"%char | "X"%char) :: l' =>
      match hex_digits l' with
      | [] => NaN
      | hs => Num (inject_Z (signed negative (fold_left (fun acc v => 16 * acc + v) hs 0)))
      end
  | _ =>
      match digits l with
      | ([], _) => NaN
      | (ds, _) => Num (inject_Z (signed negative (decimal_value ds)))
      end
  end.

(** [10^e] as a rational. *)
Definition pow10 (e : Z) : Q :=
  if 0 <=? e then inject_Z (10 ^ e) else (1 # Z.to_pos (10 ^ (- e)))%Q.

(** The exponent part [e±ddd] of a decimal literal, 0 when absent or
    without digits. *)
Definition exponent (l : list ascii) : Z :=
  match l with
  | ("e"%char | "E"%char) :: l' =>
      let '(negative, l'') := sign l' in
      match digits l'' with
      | ([], _) => 0
      | (ds, _) => signed negative (decimal_value ds)
      end
  | _ => 0
  end.

(** [parseFloat(s)]: white space, a sign, then [Infinity] or the longest
    decimal literal; [NaN] when there is none. *)
Definition parseFloat (s : string) : number :=
  let '(negative, l) := sign (trim_start (list_ascii_of_string s)) in
  if String.prefix "Infinity" (string_of_list_ascii l) then Infinity negative
  else
    let '(int_part, rest) := digits l in
    let '(frac_part, rest') :=
      match rest with
      | "."%char :: r => digits r
      | _ => ([], rest)
      end in
    match (int_part ++ frac_part)%list with
    | [] => NaN
    | ds =>
        let mantissa :=
          (inject_Z (decimal_value ds) * pow10 (- Z.of_nat (length frac_part)))%Q in
        Num (Qred (inject_Z (signed negative 1) * mantissa * pow10 (exponent rest')))
    end.

(** [s.split(sep)] for a one-character separator. *)
Fixpoint split_on (sep : ascii) (s : string) : list string :=
  match s with
  | EmptyString => [""]
  | String c rest =>
      if Ascii.eqb c sep then "" :: split_on sep rest
      else match split_on sep rest with
           | piece :: pieces => String c piece :: pieces
           | [] => [String c ""]
           end
  end.

(** [parts.join(sep)]. *)
Fixpoint join (sep : string) (parts : list string) : string :=
  match parts with
  | [] => ""
  | [p] => p
  | p :: rest => p ++ sep ++ join sep rest
  end.

End JS.

(* ================================================================== *)
(** * Data model ([src/types]) *)
(* ================================================================== *)

Record Location : Type := mkLocation {
  lat : Q;
  lng : Q
}.

Record AccessibilityFeatures : Type := mkAccessibility {
  wheelchairAccessible : option bool;
  hasRamp : option bool;
  hasElevator : option bool;
  hasAccessibleToilet : option bool;
  hasAccessibleParking : option bool;
  hasAutomaticDoor : option bool
}.

(** [Omit<Facility, 'id' | 'createdAt' | 'updatedAt'>]: what the normaliser
    produces and [createFacility] consumes.  ([lastVerifiedAt] is never set
    by either and is left out.) *)
Record Facility : Type := mkFacility {
  name : string;
  description : option string;
  facilityTypeId : string;
  location : Location;
  address : option string;
  accessibility : AccessibilityFeatures;
  openingHours : option (gmap string string);
  phone : option string;
  website : option string;
  verified : bool;
  dataQualityScore : option Q;
  dataSources : list string;
  externalIds : gmap string string
}.

(** [OSMElement = OSMNode | OSMWay]. *)
Inductive OSMElement : Type :=
| OSMNode (id : Z) (lat lon : Q) (tags : gmap string string)
| OSMWay (id : Z) (nodes : list Z) (tags : gmap string string).

(* ================================================================== *)
(** * Tag normaliser ([parseOSMElement], osmService.ts) *)
(* ================================================================== *)

Module Normalizer.

(** The facility-type cascade of [parseOSMElement]. *)
Definition classify (tags : gmap string string) : string :=
  if JS.strict_eq (tags !! "amenity") "toilets" || JS.strict_eq (tags !! "toilets:wheelchair") "yes"
  then "toilet"
  else if JS.strict_eq (tags !! "amenity") "parking" || JS.strict_eq (tags !! "parking:disabled") "yes"
  then "parking"
  else if JS.strict_eq (tags !! "highway") "elevator" || JS.strict_eq (tags !! "elevator") "yes"
  then "elevator"
  else if JS.strict_eq (tags !! "ramp") "yes"
  then "ramp"
  else if JS.truthy (tags !! "entrance")
  then "entrance"
  else if JS.strict_eq (tags !! "railway") "station" || JS.strict_eq (tags !! "public_transport") "station"
  then "station"
  else "entrance".

(** The [accessibility] object literal: every field is the value of a
    boolean expression. *)
Definition extract_accessibility (tags : gmap string string) : AccessibilityFeatures :=
  {| wheelchairAccessible :=
       Some (JS.strict_eq (tags !! "wheelchair") "yes" || JS.strict_eq (tags !! "wheelchair") "limited");
     hasRamp := Some (JS.strict_eq (tags !! "ramp") "yes");
     hasElevator :=
       Some (JS.strict_eq (tags !! "elevator") "yes" || JS.strict_eq (tags !! "highway") "elevator");
     hasAccessibleToilet := Some (JS.strict_eq (tags !! "toilets:wheelchair") "yes");
     hasAccessibleParking :=
       Some (JS.strict_eq (tags !! "parking:disabled") "yes"
             || JS.strict_eq (tags !! "parking:disabled") "designated");
     hasAutomaticDoor :=
       Some (JS.strict_eq (tags !! "automatic_door") "yes" || JS.strict_eq (tags !! "door") "automatic") |}.

(** [facilityTypeId.charAt(0).toUpperCase() + facilityTypeId.slice(1)]. *)
Definition capitalize (s : string) : string :=
  match s with
  | EmptyString => ""
  | String c rest => String (JS.toUpperCase c) rest
  end.

(** [tags.name || tags.description || `${Type} at ${street || 'location'}`]. *)
Definition build_name (tags : gmap string string) (facilityTypeId : string) : string :=
  let street := default "location" (JS.or (tags !! "addr:street") (Some "location")) in
  let synthetic := capitalize facilityTypeId ++ " at " ++ street in
  default synthetic (JS.or (JS.or (tags !! "name") (tags !! "description")) (Some synthetic)).

(** One [if (tags[k]) addressParts.push(tags[k])]. *)
Definition push_if_truthy (o : option string) (parts : list string) : list string :=
  if JS.truthy o then parts ++ [default "" o] else parts.

Definition build_address (tags : gmap string string) : option string :=
  let parts :=
    push_if_truthy (tags !! "addr:postcode")
      (push_if_truthy (tags !! "addr:city")
         (push_if_truthy (tags !! "addr:street")
            (push_if_truthy (tags !! "addr:housenumber") []))) in
  if (0 <? length parts)%nat then Some (JS.join ", " parts) else None.

(** [parseOSMElement]: [None] is the [null] returned for anything but a node. *)
Definition parseOSMElement (element : OSMElement) : option Facility :=
  match element with
  | OSMWay _ _ _ => None
  | OSMNode id elat elon tags =>
      let facilityTypeId := classify tags in
      Some {| name := build_name tags facilityTypeId;
              description := JS.or (tags !! "wheelchair:description") (tags !! "description");
              facilityTypeId := facilityTypeId;
              location := {| lat := elat; lng := elon |};
              address := build_address tags;
              accessibility := extract_accessibility tags;
              openingHours :=
                if JS.truthy (tags !! "opening_hours")
                then Some {[ "raw" := default "" (tags !! "opening_hours") ]}
                else None;
              phone := tags !! "phone";
              website := tags !! "website";
              verified := false;
              dataQualityScore := Some (7 # 10)%Q;
              dataSources := ["openstreetmap"];
              externalIds := {[ "osm" := "node/" ++ pretty id ]} |}
  end.

End Normalizer.


(* ================================================================== *)
(** * The schema ([scripts/init-db.sql]) *)
(* ================================================================== *)

Module Schema.

Definition uuid : Type := Z.
Definition timestamp : Type := Z.

(** [ST_MakePoint(x, y)]: longitude first. *)
Record Point : Type := ST_MakePoint {
  ST_X : Q;
  ST_Y : Q
}.

(** SQLSTATE classes the statements of the services can raise. *)
Inductive DbError : Type :=
| string_data_right_truncation   (* value too long for type character varying(n) *)
| numeric_value_out_of_range     (* numeric field overflow, bigint out of range *)
| invalid_text_representation    (* invalid input syntax for type bigint *)
| unique_violation               (* facilities_pkey *)
| foreign_key_violation          (* facilities_facility_type_id_fkey *)
| invalid_row_count_in_limit_clause          (* LIMIT must not be negative *)
| invalid_row_count_in_result_offset_clause. (* OFFSET must not be negative *)

(** A row of [facility_types]. *)
Record FacilityType : Type := mkFacilityType {
  type_id : string;
  type_name : string;
  type_description : option string;
  icon : option string;
  category : option string;
  sort_order : Z
}.

(** The rows [init-db.sql] inserts; no service writes to this table. *)
Definition facility_types : list FacilityType :=
  [ mkFacilityType "toilet" "Accessible Toilet"
      (Some "Public toilets with accessibility features") (Some "toilet") (Some "amenity") 1;
    mkFacilityType "parking" "Accessible Parking"
      (Some "Designated accessible parking spaces") (Some "parking") (Some "transport") 2;
    mkFacilityType "ramp" "Wheelchair Ramp"
      (Some "Ramps for wheelchair access") (Some "ramp") (Some "access") 3;
    mkFacilityType "elevator" "Elevator"
      (Some "Elevators for multi-level access") (Some "elevator") (Some "access") 4;
    mkFacilityType "entrance" "Accessible Entrance"
      (Some "Step-free building entrances") (Some "entrance") (Some "access") 5;
    mkFacilityType "station" "Transit Station"
      (Some "Accessible public transit stations") (Some "station") (Some "transport") 6 ].

(** A row of [facilities], column by column.  A column whose name is also a
    field of [Facility] carries the prefix [row_]. *)
Record FacilityRow : Type := mkRow {
  id : uuid;                               (* UUID PRIMARY KEY DEFAULT uuid_generate_v4() *)
  row_name : string;                       (* VARCHAR(255) NOT NULL *)
  row_description : option string;         (* TEXT *)
  facility_type_id : option string;        (* VARCHAR(50) REFERENCES facility_types(id) *)
  row_location : Point;                    (* GEOGRAPHY(POINT, 4326) NOT NULL *)
  row_lat : Q;                             (* DECIMAL(10, 8) NOT NULL *)
  row_lng : Q;                             (* DECIMAL(11, 8) NOT NULL *)
  row_address : option string;             (* TEXT *)
  wheelchair_accessible : option bool;     (* BOOLEAN *)
  has_ramp : option bool;
  has_elevator : option bool;
  has_accessible_toilet : option bool;
  has_accessible_parking : option bool;
  has_automatic_door : option bool;
  opening_hours : option (gmap string string);  (* JSONB *)
  row_phone : option string;               (* VARCHAR(50) *)
  row_website : option string;             (* TEXT *)
  row_verified : option bool;              (* BOOLEAN DEFAULT FALSE *)
  data_quality_score : option Q;           (* DECIMAL(3, 2) *)
  data_sources : list string;              (* JSONB *)
  external_ids : gmap string string;       (* JSONB *)
  created_at : timestamp;                  (* DEFAULT CURRENT_TIMESTAMP *)
  updated_at : timestamp;                  (* DEFAULT CURRENT_TIMESTAMP *)
  last_verified_at : option timestamp;
  deleted_at : option timestamp            (* the tombstone *)
}.

(** The database: the [facilities] heap in insertion order, and the number
    of INSERT statements executed so far (it indexes the values the column
    defaults draw from the environment). *)
Record DB : Type := mkDB {
  facilities : list FacilityRow;
  statements : nat
}.

(** ** Column types *)

Definition is_space (c : ascii) : bool := Ascii.eqb c " "%char.

(** Assignment to a [VARCHAR(n)] column: an over-long value is an error
    unless the excess characters are all spaces, in which case it is
    truncated. *)
Definition varchar (n : nat) (s : string) : DbError + string :=
  if (String.length s <=? n)%nat then inr s
  else if forallb is_space (list_ascii_of_string (substring n (String.length s - n) s))
  then inr (substring 0 n s)
  else inl string_data_right_truncation.

(** [q] scaled by [10^s] and rounded to the nearest integer, ties away from
    zero. *)
Definition round_scaled (s : nat) (q : Q) : Z :=
  let n := Qnum q * 10 ^ Z.of_nat s in
  let d := Z.pos (Qden q) in
  Z.sgn n * ((2 * Z.abs n + d) / (2 * d)).

(** Assignment to a [DECIMAL(p, s)] column: round to [s] fractional digits;
    the result must be less than [10^(p-s)] in absolute value. *)
Definition decimal (p s : nat) (q : Q) : DbError + Q :=
  let r := round_scaled s q in
  if Z.abs r <? 10 ^ Z.of_nat p
  then inr (r # Z.to_pos (10 ^ Z.of_nat s))%Q
  else inl numeric_value_out_of_range.

(** A parameter bound where a [bigint] is expected (LIMIT, OFFSET). *)
Definition bigint (x : JS.number) : DbError + Z :=
  match x with
  | JS.NaN | JS.Infinity _ => inl invalid_text_representation
  | JS.Num q =>
      let q' := Qred q in
      if Pos.eqb (Qden q') 1
      then if (- 2 ^ 63 <=? Qnum q') && (Qnum q' <? 2 ^ 63)
           then inr (Qnum q')
           else inl numeric_value_out_of_range
      else inl invalid_text_representation
  end.

(** Sequencing of fallible steps. *)
Definition bind {E A B : Type} (x : E + A) (k : A -> E + B) : E + B :=
  match x with
  | inl e => inl e
  | inr a => k a
  end.

Definition optional {E A B : Type} (f : A -> E + B) (o : option A) : E + option B :=
  match o with
  | None => inr None
  | Some a => bind (f a) (fun b => inr (Some b))
  end.

Definition guard (b : bool) (e : DbError) : DbError + unit :=
  if b then inr tt else inl e.

End Schema.

Notation "'do' x <- e ; k" := (Schema.bind e (fun x => k))
  (at level 10, x name, e at level 100, k at level 200).

(* ================================================================== *)
(** * Store operations ([facilityService.ts]) *)
(* ================================================================== *)

(** [FacilitySearchParams]. *)
Module Params.
Record t : Type := mk {
  lat : Q;
  lng : Q;
  radius : option JS.number;
  facilityTypes : option (list string);
  wheelchairAccessible : option bool;
  limit : option JS.number;
  offset : option JS.number
}.
End Params.

Module Store.
Import Schema.

(** [FacilityWithDistance]: [results.map] renames the selected columns field
    by field; the result keeps the row and the computed [distance]. *)
Record FacilityWithDistance : Type := mkResult {
  row : FacilityRow;
  distance : Q
}.

Section Postgres.

(** What the database environment supplies: the value of
    [uuid_generate_v4()] and of [CURRENT_TIMESTAMP] at the n-th INSERT, and
    PostGIS's [ST_Distance] between two points cast to [geography] (metres).
    The cast itself never fails: PostGIS coerces coordinates outside
    [-180 -90, 180 90] into range. *)
Variable uuid_generate_v4 : nat -> uuid.
Variable CURRENT_TIMESTAMP : nat -> timestamp.
Variable ST_Distance : Point -> Point -> Q.

(** [ST_DWithin(g1, g2, r)]: the distance is at most [r]; never true for a
    [NaN] radius. *)
Definition ST_DWithin (g1 g2 : Point) (r : JS.number) : bool :=
  match r with
  | JS.NaN => false
  | JS.Infinity negative => negb negative
  | JS.Num r => Qle_bool (ST_Distance g1 g2) r
  end.

(** ** [createFacility] *)

(** The VALUES list of the INSERT, each value assigned to its column. *)
Definition new_row (n : nat) (f : Facility) : DbError + FacilityRow :=
  let point := ST_MakePoint (lng (location f)) (lat (location f)) in
  do name_ <- varchar 255 (name f);
  do type_ <- varchar 50 (facilityTypeId f);
  do lat_ <- decimal 10 8 (ST_Y point);
  do lng_ <- decimal 11 8 (ST_X point);
  do phone_ <- optional (varchar 50) (phone f);
  do score_ <- optional (decimal 3 2) (dataQualityScore f);
  inr {| id := uuid_generate_v4 n;
         row_name := name_;
         row_description := description f;
         facility_type_id := Some type_;
         row_location := point;
         row_lat := lat_;
         row_lng := lng_;
         row_address := address f;
         wheelchair_accessible := wheelchairAccessible (accessibility f);
         has_ramp := hasRamp (accessibility f);
         has_elevator := hasElevator (accessibility f);
         has_accessible_toilet := hasAccessibleToilet (accessibility f);
         has_accessible_parking := hasAccessibleParking (accessibility f);
         has_automatic_door := hasAutomaticDoor (accessibility f);
         opening_hours := openingHours f;
         row_phone := phone_;
         row_website := website f;
         row_verified := Some (verified f);
         data_quality_score := score_;
         data_sources := dataSources f;
         external_ids := externalIds f;
         created_at := CURRENT_TIMESTAMP n;
         updated_at := CURRENT_TIMESTAMP n;
         last_verified_at := None;
         deleted_at := None |}.

Definition primary_key_free (db : DB) (i : uuid) : bool :=
  forallb (fun r => negb (Z.eqb (id r) i)) (facilities db).

Definition references_facility_types (t : option string) : bool :=
  match t with
  | None => true
  | Some t => existsb (fun ft => String.eqb (type_id ft) t) facility_types
  end.

(** The INSERT: column assignment, then the primary key, then the foreign
    key.  The only checks are those the schema declares. *)
Definition insert (db : DB) (f : Facility) : DbError + FacilityRow :=
  do r <- new_row (statements db) f;
  do _ <- guard (primary_key_free db (id r)) unique_violation;
  do _ <- guard (references_facility_types (facility_type_id r)) foreign_key_violation;
  inr r.

(** [createFacility]: the database after the statement, and either the error
    thrown or [results[0].id]. *)
Definition createFacility (f : Facility) (db : DB) : DB * (DbError + uuid) :=
  match insert db f with
  | inl e => (mkDB (facilities db) (S (statements db)), inl e)
  | inr r => (mkDB (facilities db ++ [r]) (S (statements db)), inr (id r))
  end.

(** ** [searchNearbyFacilities] *)

(** [facility_type_id = ANY($n)], pushed only for a non-empty array. *)
Definition type_condition (facilityTypes : option (list string)) (r : FacilityRow) : bool :=
  match facilityTypes with
  | Some (t :: ts) =>
      match facility_type_id r with
      | Some x => existsb (String.eqb x) (t :: ts)
      | None => false
      end
  | _ => true
  end.

(** [wheelchair_accessible = $n], pushed only when the filter is defined.
    A NULL column never equals the parameter. *)
Definition wheelchair_condition (wheelchairAccessible : option bool) (r : FacilityRow) : bool :=
  match wheelchairAccessible with
  | Some b =>
      match wheelchair_accessible r with
      | Some x => Bool.eqb x b
      | None => false
      end
  | None => true
  end.

Definition not_deleted (r : FacilityRow) : bool :=
  match deleted_at r with
  | None => true
  | Some _ => false
  end.

Definition center (p : Params.t) : Point := ST_MakePoint (Params.lng p) (Params.lat p).

(** [radius = 1000] in the destructuring: the default applies to
    [undefined] only. *)
Definition effective_radius (p : Params.t) : JS.number :=
  default (JS.Num 1000) (Params.radius p).

(** The WHERE clause. *)
Definition where_clause (p : Params.t) (r : FacilityRow) : bool :=
  ST_DWithin (row_location r) (center p) (effective_radius p)
  && not_deleted r
  && type_condition (Params.facilityTypes p) r
  && wheelchair_condition (Params.wheelchairAccessible p) r.

Definition select (p : Params.t) (r : FacilityRow) : FacilityWithDistance :=
  {| row := r; distance := ST_Distance (row_location r) (center p) |}.

(** [ORDER BY distance ASC]: the only sort key is the distance.  SQL leaves
    the order of rows with equal keys to the executor; here they keep their
    heap order. *)
Fixpoint insert_sorted (x : FacilityWithDistance) (l : list FacilityWithDistance)
  : list FacilityWithDistance :=
  match l with
  | [] => [x]
  | y :: l' =>
      if Qle_bool (distance x) (distance y) then x :: y :: l'
      else y :: insert_sorted x l'
  end.

Definition order_by_distance (l : list FacilityWithDistance) : list FacilityWithDistance :=
  foldr insert_sorted [] l.

(** The rows the query selects, in order, before LIMIT and OFFSET. *)
Definition matching (db : DB) (p : Params.t) : list FacilityWithDistance :=
  order_by_distance (map (select p) (List.filter (where_clause p) (facilities db))).

(** [searchNearbyFacilities]: the error thrown by the query, or the page. *)
Definition searchNearbyFacilities (db : DB) (p : Params.t)
  : DbError + list FacilityWithDistance :=
  do lim <- bigint (default (JS.Num 20) (Params.limit p));
  do off <- bigint (default (JS.Num 0) (Params.offset p));
  do _ <- guard (0 <=? off) invalid_row_count_in_result_offset_clause;
  do _ <- guard (0 <=? lim) invalid_row_count_in_limit_clause;
  inr (take (Z.to_nat lim) (drop (Z.to_nat off) (matching db p))).

(** ** [getFacilityById] *)

Definition getFacilityById (db : DB) (i : uuid) : option FacilityRow :=
  head (List.filter (fun r => Z.eqb (id r) i && not_deleted r) (facilities db)).

(** ** [getFacilityTypes] *)

Fixpoint insert_type (x : FacilityType) (l : list FacilityType) : list FacilityType :=
  match l with
  | [] => [x]
  | y :: l' => if sort_order x <=? sort_order y then x :: y :: l' else y :: insert_type x l'
  end.

Definition getFacilityTypes : list FacilityType := foldr insert_type [] facility_types.

End Postgres.

End Store.

(* ================================================================== *)
(** * Ingestion ([osmService.ts], [config.ts]) *)
(* ================================================================== *)

Module Config.
(** [config.osm.overpassUrl], when [OSM_OVERPASS_URL] is not set. *)
Definition overpassUrl : string := "https://overpass-api.de/api/interpreter".
(** [config.osm.rateLimitMs]: "max 2 requests per second". *)
Definition rateLimitMs : Z := 500.
End Config.

Module Ingest.
Import Schema Normalizer.

(** A thrown [Error], by its [message]. *)
Record Error : Type := mkError {
  message : string
}.

Record OSMResponse : Type := mkResponse {
  version : Q;
  generator : string;
  timestamp_osm_base : string;
  copyright : string;
  elements : list OSMElement
}.

(** [buildOverpassQuery]: a fixed Overpass QL text into which the radius and
    the centre are interpolated eight times, as [(around:radius,lat,lng)].
    The model keeps the three numbers. *)
Record OverpassQuery : Type := mkQuery {
  around_radius : JS.number;
  around_lat : JS.number;
  around_lng : JS.number
}.

Definition buildOverpassQuery (lat lng radius : JS.number) : OverpassQuery :=
  {| around_radius := radius; around_lat := lat; around_lng := lng |}.

(** Lines written to the console by the service. *)
Inductive LogLine : Type :=
| fetching_data (lat lng radius : JS.number)              (* console.log *)
| error_fetching (message : string)                       (* console.error *)
| imported_facility (name : string) (facilityId : uuid)   (* console.log *)
| failed_to_import (name : string) (error : DbError)      (* console.error *)
| imported_total (importedCount : nat)                    (* console.log *)
| syncing_area (centerLat centerLng : JS.number).         (* console.log *)

(** ** The rate gate *)

(** The state [rateLimitedRequest] runs in: the clock ([Date.now()], ms), the
    module variable [lastRequestTime], the due times of the calls suspended
    in [setTimeout] (in call order), and the times at which [axios.post] has
    been called, latest first. *)
Record World : Type := mkWorld {
  now : Z;
  lastRequestTime : Z;
  timers : list Z;
  posts : list Z
}.

(** What the event loop can do next.  A JavaScript function runs without
    interruption up to its next [await], so a call to [rateLimitedRequest]
    is two atomic segments: up to the [await] of the timer ([Call]) and from
    the timer to [axios.post] ([Fire]); a call that need not wait runs both
    at once. *)
Inductive event : Type :=
| Elapse (ms : nat)   (* time passes *)
| Call                (* a caller enters rateLimitedRequest *)
| Fire (k : nat).     (* the timer of the k-th suspended call fires *)

(** [lastRequestTime = Date.now()] followed by [axios.post(...)]. *)
Definition post (w : World) : World :=
  {| now := now w; lastRequestTime := now w; timers := timers w; posts := now w :: posts w |}.

Definition step (w : World) (e : event) : World :=
  match e with
  | Elapse ms =>
      {| now := now w + Z.of_nat ms; lastRequestTime := lastRequestTime w;
         timers := timers w; posts := posts w |}
  | Call =>
      let timeSinceLastRequest := now w - lastRequestTime w in
      if timeSinceLastRequest <? Config.rateLimitMs
      then {| now := now w; lastRequestTime := lastRequestTime w;
              timers := timers w ++ [now w + (Config.rateLimitMs - timeSinceLastRequest)];
              posts := posts w |}
      else post w
  | Fire k =>
      match timers w !! k with
      | Some due =>
          if due <=? now w
          then post {| now := now w; lastRequestTime := lastRequestTime w;
                       timers := delete k (timers w); posts := posts w |}
          else w                 (* a timer does not fire before it is due *)
      | None => w
      end
  end.

Definition run (w : World) (schedule : list event) : World :=
  fold_left step schedule w.

(** Every two consecutive requests are at least [gap] ms apart. *)
Fixpoint spaced (gap : Z) (posts : list Z) : bool :=
  match posts with
  | later :: ((earlier :: _) as rest) => (gap <=? later - earlier) && spaced gap rest
  | _ => true
  end.

Section Provider.

(** The provider's answer to the n-th request sent, given its URL and its
    body, and the database environment (see [Store]). *)
Variable axios_post : nat -> string -> OverpassQuery -> Error + OSMResponse.
Variable uuid_generate_v4 : nat -> uuid.
Variable CURRENT_TIMESTAMP : nat -> timestamp.

(** [rateLimitedRequest] run to completion by a single caller: it enters,
    sleeps until its timer is due if it has to, and sends the request.  The
    result is the response data, or the error [axios.post] throws. *)
Definition rateLimitedRequest (url : string) (data : OverpassQuery) (w : World)
  : World * (Error + OSMResponse) :=
  let n := length (posts w) in
  let k := length (timers w) in
  let w1 := step w Call in
  let w2 :=
    match timers w1 !! k with
    | Some due => step (step w1 (Elapse (Z.to_nat (due - now w1)))) (Fire k)
    | None => w1
    end in
  (w2, axios_post n url data).

(** [fetchOSMFacilities]: one call of [rateLimitedRequest] inside
    [try]/[catch]; the handler logs and rethrows.  Returns the lines
    written to the console as well. *)
Definition fetchOSMFacilities (lat lng radius : JS.number) (w : World)
  : World * list LogLine * (Error + OSMResponse) :=
  let query := buildOverpassQuery lat lng radius in
  match rateLimitedRequest Config.overpassUrl query w with
  | (w', inr data) => (w', [fetching_data lat lng radius], inr data)
  | (w', inl error) =>
      (w', [fetching_data lat lng radius; error_fetching (message error)],
       inl (mkError ("Failed to fetch OSM data: " ++ message error)))
  end.

(** ** The import loop *)

(** The state of the [for] loop of [importOSMFacilities]: the store, the
    counter, and the console of the run so far. *)
Record Loop : Type := mkLoop {
  db : DB;
  importedCount : nat;
  console : list LogLine
}.

(** The body of the loop.  [createFacility] is the only statement in the
    [try]; no lookup precedes it. *)
Definition import_element (s : Loop) (element : OSMElement) : Loop :=
  match parseOSMElement element with
  | None => s
  | Some facility =>
      match Store.createFacility uuid_generate_v4 CURRENT_TIMESTAMP facility (db s) with
      | (db', inr facilityId) =>
          {| db := db'; importedCount := S (importedCount s);
             console := console s ++ [imported_facility (name facility) facilityId] |}
      | (db', inl error) =>
          {| db := db'; importedCount := importedCount s;
             console := console s ++ [failed_to_import (name facility) error] |}
      end
  end.

Definition import_elements (els : list OSMElement) (d : DB) (lines : list LogLine) : Loop :=
  fold_left import_element els (mkLoop d 0 lines).

(** [importOSMFacilities(lat, lng, radius = 1000)]: the world and the loop
    state after the run, and either the error that escapes or the number
    returned. *)
Definition importOSMFacilities (lat lng : JS.number) (radius : option JS.number)
    (w : World) (d : DB) : World * Loop * (Error + nat) :=
  match fetchOSMFacilities lat lng (default (JS.Num 1000) radius) w with
  | (w', lines, inl error) => (w', mkLoop d 0 lines, inl error)
  | (w', lines, inr osmData) =>
      let s := import_elements (elements osmData) d lines in
      (w',
       {| db := db s; importedCount := importedCount s;
          console := console s ++ [imported_total (importedCount s)] |},
       inr (importedCount s))
  end.

(** [syncOSMDataForArea(centerLat, centerLng, radius = 5000)]: the same
    loop, silent; returns [{ total, imported }]. *)
Definition syncOSMDataForArea (centerLat centerLng : JS.number) (radius : option JS.number)
    (w : World) (d : DB) : World * DB * list LogLine * (Error + nat * nat) :=
  match fetchOSMFacilities centerLat centerLng (default (JS.Num 5000) radius) w with
  | (w', lines, inl error) => (w', d, syncing_area centerLat centerLng :: lines, inl error)
  | (w', lines, inr osmData) =>
      let s := import_elements (elements osmData) d [] in
      (w', db s, syncing_area centerLat centerLng :: lines,
       inr (length (elements osmData), importedCount s))
  end.

End Provider.

End Ingest.

(* ================================================================== *)
(** * The [/nearby] entry point ([routes/facilities.ts]) *)
(* ================================================================== *)

(** [SearchQuery]: the query string, every parameter possibly missing. *)
Module Query.
Record t : Type := mk {
  lat : option string;
  lng : option string;
  radius : option string;
  types : option string;
  wheelchairAccessible : option string;
  limit : option string;
  offset : option string
}.
End Query.

Module Routes.
Import Schema.

(** What the handler sends. *)
Inductive Reply : Type :=
| BadRequest (error message : string)                      (* status 400 *)
| Success (facilities : list Store.FacilityWithDistance) (count : nat)
          (location : Location) (radius : JS.number)       (* status 200 *)
| ServerError (error : string) (cause : DbError).          (* status 500 *)

(** [s ? f(s) : undefined] for a query parameter [s]. *)
Definition if_given {A : Type} (s : option string) (f : string -> A) : option A :=
  if JS.truthy s then Some (f (default "" s)) else None.

(** The part of the handler before the [try]: the checks on [lat] and
    [lng], then the [searchParams] literal. *)
Definition search_params (q : Query.t) : Reply + Params.t :=
  if negb (JS.truthy (Query.lat q)) || negb (JS.truthy (Query.lng q))
  then inl (BadRequest "Missing required parameters" "lat and lng are required")
  else
    let latNum := JS.parseFloat (default "" (Query.lat q)) in
    let lngNum := JS.parseFloat (default "" (Query.lng q)) in
    if JS.isNaN latNum || JS.isNaN lngNum
    then inl (BadRequest "Invalid parameters" "lat and lng must be valid numbers")
    else if JS.lt latNum (JS.Num (-90)) || JS.lt (JS.Num 90) latNum
    then inl (BadRequest "Invalid latitude" "Latitude must be between -90 and 90")
    else if JS.lt lngNum (JS.Num (-180)) || JS.lt (JS.Num 180) lngNum
    then inl (BadRequest "Invalid longitude" "Longitude must be between -180 and 180")
    else
      (* both numbers passed the range checks, so both are finite *)
      let latQ := match latNum with JS.Num x => x | _ => 0%Q end in
      let lngQ := match lngNum with JS.Num x => x | _ => 0%Q end in
      inr {| Params.lat := latQ;
             Params.lng := lngQ;
             Params.radius := if_given (Query.radius q) JS.parseInt;
             Params.facilityTypes := if_given (Query.types q) (JS.split_on ",");
             Params.wheelchairAccessible :=
               if JS.strict_eq (Query.wheelchairAccessible q) "true" then Some true
               else if JS.strict_eq (Query.wheelchairAccessible q) "false" then Some false
               else None;
             Params.limit := if_given (Query.limit q) JS.parseInt;
             Params.offset := if_given (Query.offset q) JS.parseInt |}.

Section Handler.

Variable ST_Distance : Point -> Point -> Q.

(** [GET /facilities/nearby]. *)
Definition nearby (db : DB) (q : Query.t) : Reply :=
  match search_params q with
  | inl reply => reply
  | inr searchParams =>
      match Store.searchNearbyFacilities ST_Distance db searchParams with
      | inr facilities =>
          Success facilities (length facilities)
            {| lat := Params.lat searchParams; lng := Params.lng searchParams |}
            (JS.or_number (Params.radius searchParams) (JS.Num 1000))
      | inl error => ServerError "Search failed" error
      end
  end.

End Handler.

End Routes.

(* ================================================================== *)
(** * The other entry points ([routes/facilities.ts], [routes/osm.ts]) *)
(* ================================================================== *)

Module FacilityRoutes.
Import Schema.

(** What the [/:id] handler sends. *)
Inductive Reply : Type :=
| Found (facility : FacilityRow)                 (* status 200 *)
| NotFound (error message : string)              (* status 404 *)
| ServerError (error : string) (cause : DbError). (* status 500 *)

Section Handler.

(** The conversion of the text parameter to the [uuid] type of the [id]
    column, done by the database when it binds [$1]; [None] for text that is
    not a UUID. *)
Variable uuid_in : string -> option uuid.

(** [GET /facilities/:id]. *)
Definition by_id (db : DB) (id : string) : Reply :=
  match uuid_in id with
  | None => ServerError "Failed to fetch facility" invalid_text_representation
  | Some i =>
      match Store.getFacilityById db i with
      | Some facility => Found facility
      | None => NotFound "Not found" ("Facility with id " ++ id ++ " not found")
      end
  end.

End Handler.

End FacilityRoutes.

(** [ImportQuery]: the query string of the two [/osm] entry points. *)
Module ImportQuery.
Record t : Type := mk {
  lat : option string;
  lng : option string;
  radius : option string
}.
End ImportQuery.

Module OsmRoutes.
Import Schema Ingest.

(** What the handlers send. *)
Inductive Reply : Type :=
| BadRequest (error message : string)                             (* status 400 *)
| Imported (imported : nat) (location : JS.number * JS.number)
           (radius : JS.number) (message : string)                (* status 200 *)
| Synced (total imported : nat) (message : string)                (* status 200 *)
| ServerError (error message : string).                           (* status 500 *)

(** [radius ? parseInt(radius) : dflt]. *)
Definition radius_or (radius : option string) (dflt : Z) : JS.number :=
  if JS.truthy radius then JS.parseInt (default "" radius) else JS.Num (inject_Z dflt).

Section Handlers.

Variable axios_post : nat -> string -> OverpassQuery -> Error + OSMResponse.
Variable uuid_generate_v4 : nat -> uuid.
Variable CURRENT_TIMESTAMP : nat -> timestamp.

(** [POST /osm/import]: the world, the store and the console after the
    request, and the reply. *)
Definition post_import (q : ImportQuery.t) (w : World) (d : DB)
  : World * DB * list LogLine * Reply :=
  if negb (JS.truthy (ImportQuery.lat q)) || negb (JS.truthy (ImportQuery.lng q))
  then (w, d, [], BadRequest "Missing required parameters" "lat and lng are required")
  else
    let latNum := JS.parseFloat (default "" (ImportQuery.lat q)) in
    let lngNum := JS.parseFloat (default "" (ImportQuery.lng q)) in
    let radiusNum := radius_or (ImportQuery.radius q) 1000 in
    if JS.isNaN latNum || JS.isNaN lngNum
    then (w, d, [], BadRequest "Invalid parameters" "lat and lng must be valid numbers")
    else
      match importOSMFacilities axios_post uuid_generate_v4 CURRENT_TIMESTAMP
              latNum lngNum (Some radiusNum) w d with
      | (w', s, inr importedCount) =>
          (w', db s, console s,
           Imported importedCount (latNum, lngNum) radiusNum
             ("Imported " ++ pretty importedCount ++ " facilities from OpenStreetMap"))
      | (w', s, inl error) =>
          (w', db s, console s, ServerError "Import failed" (message error))
      end.

(** [POST /osm/sync]. *)
Definition post_sync (q : ImportQuery.t) (w : World) (d : DB)
  : World * DB * list LogLine * Reply :=
  if negb (JS.truthy (ImportQuery.lat q)) || negb (JS.truthy (ImportQuery.lng q))
  then (w, d, [], BadRequest "Missing required parameters" "lat and lng are required")
  else
    let latNum := JS.parseFloat (default "" (ImportQuery.lat q)) in
    let lngNum := JS.parseFloat (default "" (ImportQuery.lng q)) in
    let radiusNum := radius_or (ImportQuery.radius q) 5000 in
    match syncOSMDataForArea axios_post uuid_generate_v4 CURRENT_TIMESTAMP
            latNum lngNum (Some radiusNum) w d with
    | (w', d', lines, inr (total, imported)) =>
        (w', d', lines,
         Synced total imported
           ("Synced " ++ pretty imported ++ " facilities out of " ++ pretty total
            ++ " OSM elements"))
    | (w', d', lines, inl error) =>
        (w', d', lines, ServerError "Sync failed" (message error))
    end.

End Handlers.

End OsmRoutes.

(* ================================================================== *)
(** * Properties of the tag normaliser *)
(* ================================================================== *)

Module NormalizerFacts.
Import Normalizer.

Lemma strict_eq_true (o : option string) (v : string) :
  JS.strict_eq o v = true <-> o = Some v.
Proof.
  destruct o as [s|]; simpl.
  - rewrite String.eqb_eq. split; congruence.
  - split; discriminate.
Qed.

(** A flag computed as [Some b] is [true] exactly under [P] and [false]
    exactly outside [P]; in particular it is never unset. *)
Definition follows (flag : option bool) (P : Prop) : Prop :=
  (flag = Some true <-> P) /\ (flag = Some false <-> ~ P).

Lemma follows_set (flag : option bool) (P : Prop) : follows flag P -> flag <> None.
Proof.
  intros [Ht Hf] ->.
  assert (HnP : ~ P) by (intros HP; apply Ht in HP; discriminate).
  apply Hf in HnP. discriminate.
Qed.

Lemma follows_bool (b : bool) (P : Prop) : (b = true <-> P) -> follows (Some b) P.
Proof.
  intros [H1 H2]. unfold follows. destruct b.
  - assert (HP : P) by (apply H1; reflexivity).
    repeat split; intros; try reflexivity; try discriminate; try assumption; tauto.
  - assert (HP : ~ P) by (intros HP; apply H2 in HP; discriminate).
    repeat split; intros; try reflexivity; try discriminate; try assumption; tauto.
Qed.

Lemma follows_one (o : option string) (v : string) :
  follows (Some (JS.strict_eq o v)) (o = Some v).
Proof. apply follows_bool, strict_eq_true. Qed.

Lemma follows_two (o1 o2 : option string) (v1 v2 : string) :
  follows (Some (JS.strict_eq o1 v1 || JS.strict_eq o2 v2)) (o1 = Some v1 \/ o2 = Some v2).
Proof.
  apply follows_bool. rewrite orb_true_iff, !strict_eq_true. reflexivity.
Qed.

(** C1 (as the code has it): for every node, [parseOSMElement] returns a
    candidate whose six accessibility flags are all set: a flag is [true]
    exactly when one of its affirmative tag values is present and [false] in
    every other case, the absence of the tag included.  A node tagged
    [toilets:wheelchair=yes] is classified [toilet] with
    [hasAccessibleToilet = true]; a node without a [wheelchair] tag gets
    [wheelchairAccessible = false]. *)
Theorem C1_flags_are_two_valued (i : Z) (la lo : Q) (tags : gmap string string) :
  exists f, parseOSMElement (OSMNode i la lo tags) = Some f /\
    follows (wheelchairAccessible (accessibility f))
      (tags !! "wheelchair" = Some "yes" \/ tags !! "wheelchair" = Some "limited") /\
    follows (hasRamp (accessibility f)) (tags !! "ramp" = Some "yes") /\
    follows (hasElevator (accessibility f))
      (tags !! "elevator" = Some "yes" \/ tags !! "highway" = Some "elevator") /\
    follows (hasAccessibleToilet (accessibility f)) (tags !! "toilets:wheelchair" = Some "yes") /\
    follows (hasAccessibleParking (accessibility f))
      (tags !! "parking:disabled" = Some "yes" \/ tags !! "parking:disabled" = Some "designated") /\
    follows (hasAutomaticDoor (accessibility f))
      (tags !! "automatic_door" = Some "yes" \/ tags !! "door" = Some "automatic") /\
    (tags !! "toilets:wheelchair" = Some "yes" ->
       facilityTypeId f = "toilet" /\ hasAccessibleToilet (accessibility f) = Some true) /\
    (tags !! "wheelchair" = None -> wheelchairAccessible (accessibility f) = Some false).
Proof.
  eexists. split; [reflexivity|]. cbn [accessibility facilityTypeId extract_accessibility
    wheelchairAccessible hasRamp hasElevator hasAccessibleToilet hasAccessibleParking
    hasAutomaticDoor].
  repeat (split; [first [apply follows_one | apply follows_two]|]).
  split.
  - intros H. unfold classify. apply strict_eq_true in H. rewrite H.
    rewrite orb_true_r. split; reflexivity.
  - intros H. rewrite H. reflexivity.
Qed.

(** C1, the claim as stated fails: a node that carries no tag at all has no
    [wheelchair] tag, and its [wheelchairAccessible] flag is [false], not
    unset. *)
Lemma C1_untagged_node_is_marked_inaccessible :
  (∅ : gmap string string) !! "wheelchair" = None /\
  option_map (fun f => wheelchairAccessible (accessibility f))
    (parseOSMElement (OSMNode 1 (5252 # 100) (13405 # 1000) ∅)) = Some (Some false) /\
  option_map (fun f => wheelchairAccessible (accessibility f))
    (parseOSMElement (OSMNode 1 (5252 # 100) (13405 # 1000) ∅)) <> Some None.
Proof.
  split; [reflexivity|]. split; [reflexivity|]. discriminate.
Qed.

End NormalizerFacts.

(* ================================================================== *)
(** * Properties of the proximity search *)
(* ================================================================== *)

Module SearchFacts.
Import Schema Store.

(** The page size or offset [z] a request asks for: the parameter when it
    is given, the default otherwise. *)
Definition requests (o : option JS.number) (dflt z : Z) : Prop :=
  match o with
  | None => z = dflt
  | Some (JS.Num q) => (q == inject_Z z)%Q
  | Some _ => False
  end.

Lemma bigint_integer (q : Q) (z : Z) :
  (q == inject_Z z)%Q -> - 2 ^ 63 <= z < 2 ^ 63 -> bigint (JS.Num q) = inr z.
Proof.
  intros Hq Hz. unfold bigint.
  rewrite (Qred_complete _ _ Hq).
  rewrite Qcanon.Qred_identity by (simpl; apply Z.gcd_1_r).
  simpl. destruct (Z.leb_spec (- 2 ^ 63) z); [|lia].
  destruct (Z.ltb_spec z (2 ^ 63)); [reflexivity|lia].
Qed.

Lemma requests_bigint (o : option JS.number) (dflt z : Z) :
  requests o dflt z -> - 2 ^ 63 <= z < 2 ^ 63 ->
  bigint (default (JS.Num (inject_Z dflt)) o) = inr z.
Proof.
  unfold requests. destruct o as [[| |q]|]; simpl; try tauto.
  - apply bigint_integer.
  - intros -> Hz. apply bigint_integer; [reflexivity | exact Hz].
Qed.

Section Search.

Variable ST_Distance : Point -> Point -> Q.

Local Abbreviation select := (Store.select ST_Distance).
Local Abbreviation where_clause := (Store.where_clause ST_Distance).
Local Abbreviation matching := (Store.matching ST_Distance).
Local Abbreviation searchNearbyFacilities := (Store.searchNearbyFacilities ST_Distance).

(** ** The conditions of the WHERE clause, as propositions *)

(** The distance is at most the radius, the boundary included. *)
Definition within (d : Q) (radius : JS.number) : Prop :=
  match radius with
  | JS.Num r => (d <= r)%Q
  | JS.Infinity negative => negative = false
  | JS.NaN => False
  end.

(** No type filter (absent or empty), or the row has one of the types. *)
Definition type_filter_satisfied (types : option (list string)) (r : FacilityRow) : Prop :=
  match types with
  | None | Some [] => True
  | Some ts => exists t, facility_type_id r = Some t /\ In t ts
  end.

(** No wheelchair filter, or the row's flag is known and equal to it. *)
Definition wheelchair_filter_satisfied (w : option bool) (r : FacilityRow) : Prop :=
  match w with
  | None => True
  | Some b => wheelchair_accessible r = Some b
  end.

Definition qualifies (p : Params.t) (r : FacilityRow) : Prop :=
  within (ST_Distance (row_location r) (center p)) (effective_radius p) /\
  deleted_at r = None /\
  type_filter_satisfied (Params.facilityTypes p) r /\
  wheelchair_filter_satisfied (Params.wheelchairAccessible p) r.

Lemma ST_DWithin_spec (g1 g2 : Point) (radius : JS.number) :
  ST_DWithin ST_Distance g1 g2 radius = true <-> within (ST_Distance g1 g2) radius.
Proof.
  destruct radius as [|[]|r]; simpl.
  - split; [discriminate|tauto].
  - split; discriminate.
  - split; reflexivity.
  - apply Qle_bool_iff.
Qed.

Lemma not_deleted_spec (r : FacilityRow) : not_deleted r = true <-> deleted_at r = None.
Proof. unfold not_deleted. destruct (deleted_at r); split; congruence. Qed.

Lemma existsb_eqb_In (x : string) (ts : list string) :
  existsb (String.eqb x) ts = true <-> In x ts.
Proof.
  rewrite existsb_exists. split.
  - intros (y & Hy & Heq). apply String.eqb_eq in Heq. subst. exact Hy.
  - intros Hx. exists x. split; [exact Hx | apply String.eqb_refl].
Qed.

Lemma type_condition_spec (types : option (list string)) (r : FacilityRow) :
  type_condition types r = true <-> type_filter_satisfied types r.
Proof.
  destruct types as [[|t ts]|]; simpl; try tauto.
  destruct (facility_type_id r) as [x|].
  - change ((String.eqb x t || existsb (String.eqb x) ts) = true)
      with (existsb (String.eqb x) (t :: ts) = true).
    rewrite existsb_eqb_In. split.
    + intros H. exists x. split; [reflexivity | exact H].
    + intros (y & Hy & H). injection Hy as ->. exact H.
  - split; [discriminate|]. intros (y & Hy & _). discriminate.
Qed.

Lemma wheelchair_condition_spec (w : option bool) (r : FacilityRow) :
  wheelchair_condition w r = true <-> wheelchair_filter_satisfied w r.
Proof.
  destruct w as [b|]; simpl; [|tauto].
  destruct (wheelchair_accessible r) as [x|].
  - rewrite Bool.eqb_true_iff. split; congruence.
  - split; discriminate.
Qed.

Lemma where_clause_spec (p : Params.t) (r : FacilityRow) :
  where_clause p r = true <-> qualifies p r.
Proof.
  unfold Store.where_clause, qualifies.
  rewrite !andb_true_iff, ST_DWithin_spec, not_deleted_spec,
    type_condition_spec, wheelchair_condition_spec.
  tauto.
Qed.

(** ** ORDER BY *)

Definition by_distance (a b : FacilityWithDistance) : Prop := (distance a <= distance b)%Q.

Lemma insert_sorted_In (x y : FacilityWithDistance) (l : list FacilityWithDistance) :
  In y (insert_sorted x l) <-> y = x \/ In y l.
Proof.
  induction l as [|z l IH]; simpl.
  - intuition congruence.
  - destruct (Qle_bool (distance x) (distance z)); simpl.
    + intuition congruence.
    + rewrite IH. intuition congruence.
Qed.

Lemma order_by_distance_In (y : FacilityWithDistance) (l : list FacilityWithDistance) :
  In y (order_by_distance l) <-> In y l.
Proof.
  induction l as [|x l IH]; simpl; [tauto|].
  rewrite insert_sorted_In, IH. intuition congruence.
Qed.

Lemma insert_sorted_length (x : FacilityWithDistance) (l : list FacilityWithDistance) :
  length (insert_sorted x l) = S (length l).
Proof.
  induction l as [|z l IH]; simpl; [reflexivity|].
  destruct (Qle_bool (distance x) (distance z)); simpl; congruence.
Qed.

Lemma order_by_distance_length (l : list FacilityWithDistance) :
  length (order_by_distance l) = length l.
Proof.
  induction l as [|x l IH]; simpl; [reflexivity|].
  rewrite insert_sorted_length, IH. reflexivity.
Qed.

Lemma insert_sorted_sorted (x : FacilityWithDistance) (l : list FacilityWithDistance) :
  StronglySorted by_distance l -> StronglySorted by_distance (insert_sorted x l).
Proof.
  induction 1 as [|z l Hl IH Hz]; simpl.
  - constructor; constructor.
  - destruct (Qle_bool (distance x) (distance z)) eqn:Hxz.
    + apply Qle_bool_iff in Hxz.
      constructor; [constructor; assumption|].
      constructor; [exact Hxz|].
      rewrite List.Forall_forall in Hz |- *. intros y Hy.
      apply (Qle_trans _ (distance z)); [exact Hxz | apply Hz, Hy].
    + assert (Hzx : by_distance z x).
      { unfold by_distance. apply Qlt_le_weak, Qnot_le_lt.
        intros Hle. apply Qle_bool_iff in Hle. congruence. }
      constructor; [exact IH|].
      rewrite List.Forall_forall in Hz |- *. intros y Hy.
      apply insert_sorted_In in Hy. destruct Hy as [->|Hy]; [exact Hzx | apply Hz, Hy].
Qed.

Lemma order_by_distance_sorted (l : list FacilityWithDistance) :
  StronglySorted by_distance (order_by_distance l).
Proof.
  induction l as [|x l IH]; simpl; [constructor | apply insert_sorted_sorted, IH].
Qed.

(** ** LIMIT and OFFSET *)

Lemma In_take {A : Type} (x : A) (n : nat) (l : list A) : In x (take n l) -> In x l.
Proof.
  revert l. induction n as [|n IH]; intros [|y l]; simpl; try tauto.
  intros [->|H]; [left; reflexivity | right; apply IH, H].
Qed.

Lemma In_drop {A : Type} (x : A) (n : nat) (l : list A) : In x (drop n l) -> In x l.
Proof.
  revert l. induction n as [|n IH]; intros [|y l]; simpl; try tauto.
  intros H. right. apply IH, H.
Qed.

Lemma StronglySorted_drop {A : Type} (R : A -> A -> Prop) (n : nat) (l : list A) :
  StronglySorted R l -> StronglySorted R (drop n l).
Proof.
  revert l. induction n as [|n IH]; intros l Hl; [exact Hl|].
  destruct Hl; simpl; [constructor | apply IH; assumption].
Qed.

Lemma StronglySorted_take {A : Type} (R : A -> A -> Prop) (n : nat) (l : list A) :
  StronglySorted R l -> StronglySorted R (take n l).
Proof.
  revert l. induction n as [|n IH]; intros l Hl; [constructor|].
  destruct Hl as [|x l Hl Hx]; simpl; [constructor|].
  constructor; [apply IH, Hl|].
  rewrite List.Forall_forall in Hx |- *. intros y Hy. apply Hx.
  apply (In_take _ _ _ Hy).
Qed.

(** ** The query *)

Lemma matching_In (db : DB) (p : Params.t) (x : FacilityWithDistance) :
  In x (matching db p) <->
  exists r, In r (facilities db) /\ qualifies p r /\ x = select p r.
Proof.
  unfold Store.matching. rewrite order_by_distance_In, in_map_iff. split.
  - intros (r & Hx & Hr). apply filter_In in Hr. destruct Hr as [Hr Hw].
    exists r. rewrite <- where_clause_spec. auto.
  - intros (r & Hr & Hq & ->). exists r. split; [reflexivity|].
    apply filter_In. rewrite where_clause_spec. auto.
Qed.

Lemma matching_select (db : DB) (p : Params.t) (r : FacilityRow) :
  In r (facilities db) -> In (select p r) (matching db p) <-> qualifies p r.
Proof.
  intros Hr. rewrite matching_In. split.
  - intros (r' & _ & Hq & Heq). apply (f_equal row) in Heq. simpl in Heq. subst. exact Hq.
  - intros Hq. exists r. auto.
Qed.

(** With a page size and an offset that are non-negative integers the query
    succeeds and returns the requested window of the selected rows. *)
Lemma search_returns_page (db : DB) (p : Params.t) (lim off : Z) :
  requests (Params.limit p) 20 lim -> 0 <= lim < 2 ^ 63 ->
  requests (Params.offset p) 0 off -> 0 <= off < 2 ^ 63 ->
  searchNearbyFacilities db p =
    inr (take (Z.to_nat lim) (drop (Z.to_nat off) (matching db p))).
Proof.
  intros Hl Hlim Ho Hoff. unfold Store.searchNearbyFacilities.
  change (JS.Num 20) with (JS.Num (inject_Z 20)).
  change (JS.Num 0) with (JS.Num (inject_Z 0)).
  rewrite (requests_bigint _ 20 lim Hl) by lia.
  rewrite (requests_bigint _ 0 off Ho) by lia.
  simpl. destruct (Z.leb_spec 0 off); [|lia]. simpl.
  destruct (Z.leb_spec 0 lim); [|lia]. reflexivity.
Qed.

(** Whatever the query returns is a window of the selected rows. *)
Lemma search_is_window (db : DB) (p : Params.t) (page : list FacilityWithDistance) :
  searchNearbyFacilities db p = inr page ->
  exists lim off : nat, page = take lim (drop off (matching db p)).
Proof.
  unfold Store.searchNearbyFacilities, bind, guard. intros H.
  destruct (bigint (default (JS.Num 20) (Params.limit p))) as [|lim]; [discriminate|].
  destruct (bigint (default (JS.Num 0) (Params.offset p))) as [|off]; [discriminate|].
  destruct (0 <=? off); [|discriminate]. destruct (0 <=? lim); [|discriminate].
  injection H as <-. eauto.
Qed.

Lemma page_In (db : DB) (p : Params.t) (page : list FacilityWithDistance)
    (x : FacilityWithDistance) :
  searchNearbyFacilities db p = inr page -> In x page ->
  In (row x) (facilities db) /\ qualifies p (row x) /\ x = select p (row x).
Proof.
  intros H Hx. apply search_is_window in H. destruct H as (lim & off & ->).
  apply In_take, In_drop, matching_In in Hx. destruct Hx as (r & Hr & Hq & ->).
  simpl. auto.
Qed.

Lemma head_In {A : Type} (l : list A) (x : A) : head l = Some x -> In x l.
Proof. destruct l; simpl; [discriminate|]. intros [= ->]. left. reflexivity. Qed.

Lemma getFacilityById_not_deleted (db : DB) (i : uuid) (r : FacilityRow) :
  getFacilityById db i = Some r -> deleted_at r = None.
Proof.
  unfold getFacilityById. intros H. apply head_In, filter_In in H.
  destruct H as [_ H]. apply andb_true_iff in H. apply not_deleted_spec, H.
Qed.



(** The service with a wheelchair filter [b] returns only rows whose flag is
    known and equal to [b]. *)
Lemma search_wheelchair_filter (db : DB) (p : Params.t) (b : bool)
    (page : list FacilityWithDistance) :
  Params.wheelchairAccessible p = Some b ->
  searchNearbyFacilities db p = inr page ->
  List.Forall (fun x => wheelchair_accessible (row x) = Some b) page.
Proof.
  intros Hb H. apply List.Forall_forall. intros x Hx.
  destruct (page_In db p page x H Hx) as (_ & (_ & _ & _ & Hw) & _).
  rewrite Hb in Hw. exact Hw.
Qed.

Lemma search_params_wheelchair (q : Query.t) (p : Params.t) (b : bool) :
  Query.wheelchairAccessible q = Some (if b then "true" else "false") ->
  Routes.search_params q = inr p ->
  Params.wheelchairAccessible p = Some b.
Proof.
  unfold Routes.search_params. intros Hq H.
  repeat match type of H with
         | (if ?c then _ else _) = _ => destruct c; [discriminate|]
         end.
  injection H as <-. simpl. rewrite Hq. destruct b; reflexivity.
Qed.

(** C10: when the request carries [wheelchairAccessible=true] or
    [wheelchairAccessible=false], every facility in a successful reply has
    its [wheelchair_accessible] column set to exactly that value; a row
    whose value is unknown (NULL) is never returned.  With [false] only
    facilities explicitly marked not accessible are returned. *)
Theorem C10_wheelchair_filter_excludes_unknown (db : DB) (q : Query.t) (b : bool)
    (fs : list FacilityWithDistance) (n : nat) (loc : Location) (rad : JS.number) :
  Query.wheelchairAccessible q = Some (if b then "true" else "false") ->
  Routes.nearby ST_Distance db q = Routes.Success fs n loc rad ->
  List.Forall (fun x => wheelchair_accessible (row x) = Some b
                        /\ wheelchair_accessible (row x) <> None) fs.
Proof.
  intros Hq H. unfold Routes.nearby in H.
  destruct (Routes.search_params q) as [reply|p] eqn:Hp.
  - unfold Routes.search_params in Hp.
    repeat match type of Hp with
           | (if ?c then _ else _) = _ => destruct c; [injection Hp as <-; discriminate|]
           end.
    discriminate.
  - destruct (searchNearbyFacilities db p) as [e|page] eqn:Hs; [discriminate|].
    injection H as <- _ _ _.
    pose proof (search_params_wheelchair q p b Hq Hp) as Hb.
    pose proof (search_wheelchair_filter db p b page Hb Hs) as Hall.
    eapply List.Forall_impl; [|exact Hall]. simpl. intros x Hx. split; congruence.
Qed.

End Search.

End SearchFacts.

(* ================================================================== *)
(** * Sample data *)
(* ================================================================== *)

Module Sample.
Import Schema.

(** Berlin centre, the example location of the README. *)
Definition berlin : Point := ST_MakePoint (13405 # 1000) (5252 # 100).

(** A stand-in for PostGIS's [ST_Distance] on which the model can be
    evaluated: taxicab distance at 111 km per degree.  Every theorem above
    holds for an arbitrary [ST_Distance]. *)
Definition planar_distance (a b : Point) : Q :=
  (111000 * (Qabs (ST_X a - ST_X b) + Qabs (ST_Y a - ST_Y b)))%Q.

(** A row as [createFacility] stores it for an OSM toilet, with the given
    id, position, wheelchair flag and tombstone. *)
Definition toilet_row (i : uuid) (at_ : Point) (wheelchair : option bool)
    (deleted : option timestamp) : FacilityRow :=
  {| id := i;
     row_name := "Toilet at location";
     row_description := None;
     facility_type_id := Some "toilet";
     row_location := at_;
     row_lat := ST_Y at_;
     row_lng := ST_X at_;
     row_address := None;
     wheelchair_accessible := wheelchair;
     has_ramp := Some false;
     has_elevator := Some false;
     has_accessible_toilet := Some true;
     has_accessible_parking := Some false;
     has_automatic_door := Some false;
     opening_hours := None;
     row_phone := None;
     row_website := None;
     row_verified := Some false;
     data_quality_score := Some (7 # 10)%Q;
     data_sources := ["openstreetmap"];
     external_ids := {[ "osm" := "node/" ++ pretty i ]};
     created_at := 0;
     updated_at := 0;
     last_verified_at := None;
     deleted_at := deleted |}.

(** A search around Berlin centre with everything else left to the
    defaults. *)
Definition around_berlin : Params.t :=
  {| Params.lat := 5252 # 100; Params.lng := 13405 # 1000;
     Params.radius := None; Params.facilityTypes := None;
     Params.wheelchairAccessible := None;
     Params.limit := None; Params.offset := None |}.

(** Three facilities at the centre (accessible, not accessible, unknown),
    a tombstoned one, and one about 2 km away. *)
Definition five_rows : DB :=
  {| facilities :=
       [ toilet_row 11 berlin (Some true) None;
         toilet_row 12 berlin (Some false) None;
         toilet_row 13 berlin None None;
         toilet_row 14 berlin (Some true) (Some 1700000000);
         toilet_row 15 (ST_MakePoint (13405 # 1000) (5254 # 100)) (Some false) None ];
     statements := 5 |}.

End Sample.

Module SearchExamples.
Import Schema Store SearchFacts Sample.

(** Side conditions of [search_returns_page] on concrete page bounds. *)
Ltac page_bounds := first [reflexivity | split; [discriminate | reflexivity]].


(** Two facilities at the very same point, the one inserted first having
    the larger id. *)
Definition two_at_centre : DB :=
  {| facilities :=
       [ toilet_row 22 berlin (Some true) None;
         toilet_row 21 berlin (Some true) None ];
     statements := 2 |}.

(** The search around Berlin centre with [limit=1]. *)
Definition first_only : Params.t :=
  {| Params.lat := 5252 # 100; Params.lng := 13405 # 1000;
     Params.radius := None; Params.facilityTypes := None;
     Params.wheelchairAccessible := None;
     Params.limit := Some (JS.Num 1); Params.offset := None |}.

Section AtCentre.

(** Any distance function that puts a point at distance 0 from itself. *)
Variable ST_Distance : Point -> Point -> Q.
Hypothesis distance_to_self : (ST_Distance berlin berlin == 0)%Q.

Lemma centre_within_default_radius (p : Params.t) (i : uuid) (w : option bool) :
  center p = berlin -> Params.radius p = None ->
  Params.facilityTypes p = None -> Params.wheelchairAccessible p = None ->
  qualifies ST_Distance p (toilet_row i berlin w None).
Proof.
  intros Hc Hr Ht Hw. unfold qualifies, effective_radius.
  rewrite Hc, Hr, Ht, Hw. simpl. rewrite distance_to_self.
  repeat split. discriminate.
Qed.

Lemma matching_two_at_centre (p : Params.t) :
  center p = berlin -> Params.radius p = None ->
  Params.facilityTypes p = None -> Params.wheelchairAccessible p = None ->
  matching ST_Distance two_at_centre p =
    [ select ST_Distance p (toilet_row 22 berlin (Some true) None);
      select ST_Distance p (toilet_row 21 berlin (Some true) None) ].
Proof.
  intros Hc Hr Ht Hw. unfold matching. cbn [facilities two_at_centre List.filter].
  rewrite !(proj2 (where_clause_spec ST_Distance p _))
    by (apply centre_within_default_radius; assumption).
  cbn [map order_by_distance foldr insert_sorted select distance].
  rewrite (proj2 (Qle_bool_iff _ _)) by apply Qle_refl.
  reflexivity.
Qed.

End AtCentre.




(** The request [wheelchairAccessible=false] around Berlin centre. *)
Definition not_accessible_query : Query.t :=
  {| Query.lat := Some "52.52"; Query.lng := Some "13.405";
     Query.radius := None; Query.types := None;
     Query.wheelchairAccessible := Some "false";
     Query.limit := None; Query.offset := None |}.

(** C10, instance: over [five_rows], which holds a facility of unknown
    accessibility at the centre, the request [wheelchairAccessible=false]
    is answered with the one facility marked not accessible. *)
Lemma C10_wheelchair_filter_excludes_unknown_witness :
  exists fs n loc rad,
    Routes.nearby planar_distance five_rows not_accessible_query
      = Routes.Success fs n loc rad /\
    map (fun x => id (row x)) fs = [12] /\
    List.Forall (fun x => wheelchair_accessible (row x) = Some false
                          /\ wheelchair_accessible (row x) <> None) fs.
Proof.
  do 4 eexists. split; [vm_compute; reflexivity|]. split; [reflexivity|].
  eapply (C10_wheelchair_filter_excludes_unknown planar_distance five_rows
            not_accessible_query false); [reflexivity | vm_compute; reflexivity].
Defined.

End SearchExamples.

(* ================================================================== *)
(** * Properties of [createFacility] *)
(* ================================================================== *)

Module CreateFacts.
Import Schema Store.

(** ** Column types *)

Lemma round_scaled_le (s : nat) (q : Q) (B : Z) :
  (inject_Z (- B) <= q)%Q -> (q <= inject_Z B)%Q ->
  Z.abs (round_scaled s q) <= B * 10 ^ Z.of_nat s.
Proof.
  destruct q as [n d]. unfold Qle, round_scaled. simpl. intros H1 H2.
  set (k := 10 ^ Z.of_nat s). assert (Hk : 0 < k) by (apply Z.pow_pos_nonneg; lia).
  assert (Hn : Z.abs (n * k) <= B * k * Z.pos d) by nia.
  assert (Hq : 0 <= (2 * Z.abs (n * k) + Z.pos d) / (2 * Z.pos d) <= B * k).
  { split; [apply Z.div_pos; lia|].
    apply Z.lt_succ_r, Z.div_lt_upper_bound; lia. }
  rewrite Z.abs_mul.
  destruct (Z.sgn_spec (n * k)) as [[_ ->]|[[_ ->]|[_ ->]]]; simpl Z.abs; lia.
Qed.

Lemma round_scaled_ge (s : nat) (q : Q) (B : Z) :
  0 < B -> (q <= inject_Z (- B))%Q \/ (inject_Z B <= q)%Q ->
  B * 10 ^ Z.of_nat s <= Z.abs (round_scaled s q).
Proof.
  destruct q as [n d]. unfold Qle, round_scaled. simpl. intros HB H.
  set (k := 10 ^ Z.of_nat s). assert (Hk : 0 < k) by (apply Z.pow_pos_nonneg; lia).
  assert (Hn : B * k * Z.pos d <= Z.abs (n * k)) by nia.
  assert (Hq : B * k <= (2 * Z.abs (n * k) + Z.pos d) / (2 * Z.pos d)).
  { apply Z.div_le_lower_bound; lia. }
  assert (Hnz : n * k <> 0) by nia.
  rewrite Z.abs_mul.
  destruct (Z.sgn_spec (n * k)) as [[_ ->]|[[? _]|[_ ->]]]; simpl Z.abs; lia.
Qed.

(** A value within [-B, B] fits a [DECIMAL(p, s)] column with room for [B]. *)
Lemma decimal_accepts (p s : nat) (B : Z) (q : Q) :
  B * 10 ^ Z.of_nat s < 10 ^ Z.of_nat p ->
  (inject_Z (- B) <= q)%Q -> (q <= inject_Z B)%Q ->
  exists v, decimal p s q = inr v.
Proof.
  intros HB H1 H2. unfold decimal.
  pose proof (round_scaled_le s q B H1 H2) as Hr.
  destruct (Z.ltb_spec (Z.abs (round_scaled s q)) (10 ^ Z.of_nat p)); [eauto | lia].
Qed.

(** A value of absolute value at least [B] overflows a column that has no
    room for [B]. *)
Lemma decimal_rejects (p s : nat) (B : Z) (q : Q) :
  0 < B -> 10 ^ Z.of_nat p <= B * 10 ^ Z.of_nat s ->
  (q <= inject_Z (- B))%Q \/ (inject_Z B <= q)%Q ->
  decimal p s q = inl numeric_value_out_of_range.
Proof.
  intros HB Hp H. unfold decimal.
  pose proof (round_scaled_ge s q B HB H) as Hr.
  destruct (Z.ltb_spec (Z.abs (round_scaled s q)) (10 ^ Z.of_nat p)); [lia | reflexivity].
Qed.

Lemma varchar_fits (n : nat) (s : string) :
  (String.length s <= n)%nat -> varchar n s = inr s.
Proof.
  intros H. unfold varchar. destruct (Nat.leb_spec (String.length s) n); [reflexivity | lia].
Qed.

Lemma substring_length (n : nat) (s : string) :
  (n <= String.length s)%nat -> String.length (substring 0 n s) = n.
Proof.
  revert s. induction n as [|n IH]; intros [|c s]; simpl; intros H; try reflexivity; try lia.
  rewrite IH by lia. reflexivity.
Qed.

(** Whatever [VARCHAR(n)] stores has at most [n] characters, and is the
    value itself when that has at most [n]. *)
Lemma varchar_stored (n : nat) (s v : string) :
  varchar n s = inr v ->
  (String.length v <= n)%nat /\ ((String.length s <= n)%nat -> v = s) /\
  ((n < String.length s)%nat -> String.length v = n).
Proof.
  unfold varchar. destruct (Nat.leb_spec (String.length s) n) as [Hle|Hgt].
  - intros [= <-]. repeat split; auto; lia.
  - destruct (forallb _ _); [|discriminate]. intros [= <-].
    rewrite substring_length by lia. repeat split; lia.
Qed.

(** ** Constraints *)

(** The type is one of the ids of [facility_types]. *)
Definition in_catalog (t : string) : Prop := In t (map type_id facility_types).

(** No row of the table has the id [i], tombstoned rows included. *)
Definition fresh (db : DB) (i : uuid) : Prop :=
  forall r, In r (facilities db) -> id r <> i.

Lemma in_catalog_short (t : string) : in_catalog t -> (String.length t <= 8)%nat.
Proof.
  unfold in_catalog. simpl.
  intros [<-|[<-|[<-|[<-|[<-|[<-|[]]]]]]]; simpl; lia.
Qed.

Lemma references_spec (t : string) :
  references_facility_types (Some t) = true <-> in_catalog t.
Proof.
  unfold references_facility_types, in_catalog. rewrite existsb_exists, in_map_iff.
  split; intros (ft & H1 & H2); exists ft.
  - apply String.eqb_eq in H2. auto.
  - split; [exact H2 | apply String.eqb_eq, H1].
Qed.

Lemma primary_key_free_spec (db : DB) (i : uuid) :
  primary_key_free db i = true <-> fresh db i.
Proof.
  unfold primary_key_free, fresh. rewrite forallb_forall.
  split; intros H r Hr; specialize (H r Hr).
  - apply negb_true_iff, Z.eqb_neq in H. exact H.
  - apply negb_true_iff, Z.eqb_neq, H.
Qed.

Section Create.

Variable uuid_generate_v4 : nat -> uuid.
Variable CURRENT_TIMESTAMP : nat -> timestamp.

Local Abbreviation new_row := (Store.new_row uuid_generate_v4 CURRENT_TIMESTAMP).
Local Abbreviation insert := (Store.insert uuid_generate_v4 CURRENT_TIMESTAMP).
Local Abbreviation createFacility := (Store.createFacility uuid_generate_v4 CURRENT_TIMESTAMP).

(** What a row built by the VALUES list looks like. *)
Lemma new_row_inv (n : nat) (f : Facility) (r : FacilityRow) :
  new_row n f = inr r ->
  id r = uuid_generate_v4 n /\
  (exists t, varchar 50 (facilityTypeId f) = inr t /\ facility_type_id r = Some t) /\
  row_location r = ST_MakePoint (lng (location f)) (lat (location f)) /\
  wheelchair_accessible r = wheelchairAccessible (accessibility f) /\
  external_ids r = externalIds f /\
  deleted_at r = None.
Proof.
  unfold Store.new_row, bind. intros H.
  destruct (varchar 255 (name f)); [discriminate|].
  destruct (varchar 50 (facilityTypeId f)) as [|t]; [discriminate|].
  destruct (decimal 10 8 _); [discriminate|].
  destruct (decimal 11 8 _); [discriminate|].
  destruct (optional (varchar 50) (phone f)); [discriminate|].
  destruct (optional (decimal 3 2) (dataQualityScore f)); [discriminate|].
  injection H as <-. simpl. eauto 10.
Qed.

(** Whether the VALUES list can be built does not depend on the statement
    counter. *)
Lemma new_row_fails_alike (n m : nat) (f : Facility) (e : DbError) :
  new_row n f = inl e -> new_row m f = inl e.
Proof.
  unfold Store.new_row, bind.
  destruct (varchar 255 (name f)); [auto|].
  destruct (varchar 50 (facilityTypeId f)); [auto|].
  destruct (decimal 10 8 _); [auto|].
  destruct (decimal 11 8 _); [auto|].
  destruct (optional (varchar 50) (phone f)); [auto|].
  destruct (optional (decimal 3 2) (dataQualityScore f)); [auto|].
  discriminate.
Qed.

Lemma new_row_accepts (n : nat) (f : Facility) :
  (String.length (name f) <= 255)%nat ->
  in_catalog (facilityTypeId f) ->
  (-99 <= lat (location f))%Q -> (lat (location f) <= 99)%Q ->
  (-999 <= lng (location f))%Q -> (lng (location f) <= 999)%Q ->
  (forall ph, phone f = Some ph -> (String.length ph <= 50)%nat) ->
  (forall sc, dataQualityScore f = Some sc -> (-9 <= sc)%Q /\ (sc <= 9)%Q) ->
  exists r, new_row n f = inr r /\ facility_type_id r = Some (facilityTypeId f).
Proof.
  intros Hname Htype Hlat1 Hlat2 Hlng1 Hlng2 Hphone Hscore.
  unfold Store.new_row, bind.
  rewrite (varchar_fits 255 _ Hname).
  rewrite (varchar_fits 50 (facilityTypeId f))
    by (apply in_catalog_short in Htype; lia).
  cbn [ST_X ST_Y].
  destruct (decimal_accepts 10 8 99 (lat (location f))) as [la ->];
    [reflexivity | exact Hlat1 | exact Hlat2 |].
  destruct (decimal_accepts 11 8 999 (lng (location f))) as [lo ->];
    [reflexivity | exact Hlng1 | exact Hlng2 |].
  assert (Hph : exists v, optional (varchar 50) (phone f) = inr v).
  { destruct (phone f) as [ph|]; simpl; [|eauto].
    rewrite (varchar_fits 50 ph) by (apply Hphone; reflexivity). simpl. eauto. }
  destruct Hph as [ph' ->].
  assert (Hsc : exists v, optional (decimal 3 2) (dataQualityScore f) = inr v).
  { destruct (dataQualityScore f) as [sc|]; simpl; [|eauto].
    destruct (Hscore sc eq_refl) as [H1 H2].
    destruct (decimal_accepts 3 2 9 sc) as [v ->]; [reflexivity | exact H1 | exact H2 |].
    simpl. eauto. }
  destruct Hsc as [sc' ->].
  eexists. split; reflexivity.
Qed.

Lemma new_row_rejects_coordinates (n : nat) (f : Facility) :
  (lat (location f) <= -100)%Q \/ (100 <= lat (location f))%Q \/
  (lng (location f) <= -1000)%Q \/ (1000 <= lng (location f))%Q ->
  exists e, new_row n f = inl e.
Proof.
  intros H. unfold Store.new_row, bind.
  destruct (varchar 255 (name f)); [eauto|].
  destruct (varchar 50 (facilityTypeId f)); [eauto|].
  cbn [ST_X ST_Y].
  destruct (decimal 10 8 (lat (location f))) as [|la] eqn:Hla; [eauto|].
  destruct (decimal 11 8 (lng (location f))) as [|lo] eqn:Hlo; [eauto|].
  exfalso. destruct H as [H|[H|[H|H]]].
  - rewrite (decimal_rejects 10 8 100) in Hla; [discriminate | lia | discriminate | left; exact H].
  - rewrite (decimal_rejects 10 8 100) in Hla; [discriminate | lia | discriminate | right; exact H].
  - rewrite (decimal_rejects 11 8 1000) in Hlo; [discriminate | lia | discriminate | left; exact H].
  - rewrite (decimal_rejects 11 8 1000) in Hlo; [discriminate | lia | discriminate | right; exact H].
Qed.

Lemma insert_rejects_unknown_type (db : DB) (f : Facility) :
  ~ in_catalog (facilityTypeId f) -> exists e, insert db f = inl e.
Proof.
  intros Hnot. unfold Store.insert, bind.
  destruct (new_row (statements db) f) as [|r] eqn:Hr; [eauto|].
  destruct (guard (primary_key_free db (id r)) unique_violation); [eauto|].
  destruct (references_facility_types (facility_type_id r)) eqn:Hfk; [|simpl; eauto].
  exfalso. apply new_row_inv in Hr. destruct Hr as (_ & (t & Ht & Hrt) & _).
  rewrite Hrt in Hfk. apply references_spec in Hfk.
  pose proof (in_catalog_short t Hfk) as Hshort.
  destruct (varchar_stored 50 _ _ Ht) as (_ & Hsame & Hcut).
  destruct (Nat.le_gt_cases (String.length (facilityTypeId f)) 50) as [Hle|Hgt].
  - rewrite (Hsame Hle) in Hfk. exact (Hnot Hfk).
  - specialize (Hcut Hgt). lia.
Qed.


End Create.

(** ** Boundary values *)

(** A toilet candidate at the given position, as the normaliser produces it
    for a node without further tags. *)
Definition toilet_at (la lo : Q) : Facility :=
  {| name := "Toilet at location"; description := None; facilityTypeId := "toilet";
     location := {| lat := la; lng := lo |}; address := None;
     accessibility := Normalizer.extract_accessibility {[ "toilets:wheelchair" := "yes" ]};
     openingHours := None; phone := None; website := None; verified := false;
     dataQualityScore := Some (7 # 10)%Q; dataSources := ["openstreetmap"];
     externalIds := {[ "osm" := "node/1" ]} |}.

Definition empty_db : DB := {| facilities := []; statements := 0 |}.

(** The four boundary positions are stored. *)
Example boundary_coordinates_accepted :
  forall (uuid_generate_v4 : nat -> uuid) (CURRENT_TIMESTAMP : nat -> timestamp),
    List.Forall
      (fun '(la, lo) =>
         snd (Store.createFacility uuid_generate_v4 CURRENT_TIMESTAMP (toilet_at la lo) empty_db)
         = inr (uuid_generate_v4 0%nat))
      [ (90 # 1, 180 # 1)%Q; (-90 # 1, -180 # 1)%Q; (90 # 1, -180 # 1)%Q; (-90 # 1, 180 # 1)%Q ].
Proof.
  intros gen ts. repeat constructor.
Qed.

(** Latitude 999 is not: the [lat] column overflows. *)
Example latitude_999_rejected :
  forall (uuid_generate_v4 : nat -> uuid) (CURRENT_TIMESTAMP : nat -> timestamp),
    Store.createFacility uuid_generate_v4 CURRENT_TIMESTAMP (toilet_at 999 13) empty_db
    = ({| facilities := []; statements := 1 |}, inl numeric_value_out_of_range).
Proof. reflexivity. Qed.


End CreateFacts.

(* ================================================================== *)
(** * Properties of the rate gate and of the fetch *)
(* ================================================================== *)

Module GateFacts.
Import Schema Ingest.

(** ** The two ways through [Call] *)

Lemma step_call_waits (w : World) :
  now w - lastRequestTime w < Config.rateLimitMs ->
  step w Call =
    {| now := now w; lastRequestTime := lastRequestTime w;
       timers := timers w ++ [lastRequestTime w + Config.rateLimitMs];
       posts := posts w |}.
Proof.
  intros H. simpl. destruct (Z.ltb_spec (now w - lastRequestTime w) Config.rateLimitMs);
    [|lia].
  do 3 f_equal. lia.
Qed.

Lemma step_call_passes (w : World) :
  Config.rateLimitMs <= now w - lastRequestTime w -> step w Call = post w.
Proof.
  intros H. simpl. destruct (Z.ltb_spec (now w - lastRequestTime w) Config.rateLimitMs);
    [lia | reflexivity].
Qed.

(** ** Calls that do not overlap *)

(** In the schedule, a caller enters [rateLimitedRequest] only when no other
    call is suspended in it. *)
Fixpoint one_at_a_time (w : World) (schedule : list event) : Prop :=
  match schedule with
  | [] => True
  | e :: rest => (e = Call -> timers w = []) /\ one_at_a_time (step w e) rest
  end.

(** What holds of the gate between calls that do not overlap. *)
Record gate_ok (w : World) : Prop := mk_gate_ok {
  posts_spaced : spaced Config.rateLimitMs (posts w) = true;
  last_is_latest : forall p, head (posts w) = Some p -> p = lastRequestTime w;
  at_most_one_timer : (length (timers w) <= 1)%nat;
  timers_respect_gap :
    forall due, In due (timers w) -> lastRequestTime w + Config.rateLimitMs <= due
}.

Lemma post_ok (w : World) :
  spaced Config.rateLimitMs (posts w) = true ->
  (forall p, head (posts w) = Some p -> p = lastRequestTime w) ->
  lastRequestTime w + Config.rateLimitMs <= now w ->
  timers w = [] ->
  gate_ok (post w).
Proof.
  intros Hs Hl Hgap Ht. constructor; unfold post; simpl.
  - destruct (posts w) as [|p ps] eqn:Hp; [reflexivity|].
    rewrite Hs, andb_true_r. apply Z.leb_le.
    rewrite (Hl p eq_refl). lia.
  - intros p [= <-]. reflexivity.
  - rewrite Ht. simpl. lia.
  - rewrite Ht. intros due [].
Qed.

Lemma step_ok (w : World) (e : event) :
  gate_ok w -> (e = Call -> timers w = []) -> gate_ok (step w e).
Proof.
  intros [Hs Hl Hone Hdue] Hcall. destruct e as [ms| |k]; simpl.
  - constructor; simpl; assumption.
  - specialize (Hcall eq_refl).
    destruct (Z.ltb_spec (now w - lastRequestTime w) Config.rateLimitMs) as [Hlt|Hge].
    + constructor; simpl; try assumption.
      * rewrite Hcall. simpl. lia.
      * rewrite Hcall. intros due [<-|[]]. lia.
    + apply post_ok; try assumption. lia.
  - destruct (timers w) as [|due [|due' ts]] eqn:Ht; simpl in Hone; try lia.
    + destruct k; simpl; constructor; rewrite ?Ht; simpl; assumption || lia.
    + destruct k as [|k]; simpl.
      * destruct (Z.leb_spec due (now w)) as [Hle|Hgt].
        -- apply post_ok; simpl; try assumption; try reflexivity.
           specialize (Hdue due (or_introl eq_refl)). lia.
        -- constructor; rewrite ?Ht; simpl; assumption || lia.
      * destruct k; simpl; constructor; rewrite ?Ht; simpl; assumption || lia.
Qed.

(** X1: as long as calls do not overlap, any two consecutive requests are at
    least [rateLimitMs] apart, however time passes in between and however
    late the timers fire. *)
Lemma gate_spaces_calls_one_at_a_time (w : World) (schedule : list event) :
  gate_ok w -> one_at_a_time w schedule ->
  spaced Config.rateLimitMs (posts (run w schedule)) = true.
Proof.
  revert w. induction schedule as [|e rest IH]; intros w Hok Hone; simpl.
  - apply Hok.
  - destruct Hone as [Hcall Hrest]. apply IH; [apply step_ok; assumption | exact Hrest].
Qed.

(** A first call, a second one 100 ms later that has to wait for its timer,
    a third one long after. *)
Definition calls_in_turn : list event :=
  [Call; Elapse 100; Call; Elapse 400; Fire 0; Elapse 1000; Call].

(** The process at 12:00:00.000, before any request. *)
Definition noon : World :=
  {| now := 43200000; lastRequestTime := 0; timers := []; posts := [] |}.

Lemma noon_ok : gate_ok noon.
Proof. constructor; simpl; [reflexivity | discriminate | lia | intros ? []]. Qed.

(** X1, instance: the three calls above are sent at 12:00:00.000,
    12:00:00.500 and 12:00:01.500. *)
Lemma gate_spaces_calls_one_at_a_time_witness :
  posts (run noon calls_in_turn) = [43201500; 43200500; 43200000] /\
  spaced Config.rateLimitMs (posts (run noon calls_in_turn)) = true.
Proof.
  split; [reflexivity|].
  apply (gate_spaces_calls_one_at_a_time noon calls_in_turn noon_ok).
  simpl. repeat split; intros; try reflexivity; discriminate.
Defined.

(** ** Calls that overlap *)

(** A first call at 12:00:00.000 goes through at once; two more callers
    enter 1 ms and 2 ms later, while nothing has been sent since; both
    timers are due at 12:00:00.500 and fire then. *)
Definition overlapping_calls : list event :=
  [Call; Elapse 1; Call; Elapse 1; Call; Elapse 498; Fire 0; Fire 0].

(** C9, evaluated on overlapping calls: the second and the third request
    are sent at the same instant, 500 ms after the first; the gate does not
    keep them [rateLimitMs] apart.  Each caller reads [lastRequestTime]
    before its [await] and nobody updates it until a timer fires, so both
    compute the same wake-up time. *)
Theorem C9_overlapping_calls_are_sent_together :
  posts (run noon overlapping_calls) = [43200500; 43200500; 43200000] /\
  spaced Config.rateLimitMs (posts (run noon overlapping_calls)) = false /\
  gate_ok noon.
Proof.
  split; [reflexivity|]. split; [reflexivity|]. exact noon_ok.
Qed.

End GateFacts.

(* ================================================================== *)
(** * Properties of the fetch and of the import loop *)
(* ================================================================== *)

Module ImportFacts.
Import Schema Normalizer Store Ingest CreateFacts GateFacts.

(** The number of [failed_to_import] lines on the console. *)
Fixpoint failures (console : list LogLine) : nat :=
  match console with
  | [] => 0
  | failed_to_import _ _ :: rest => S (failures rest)
  | _ :: rest => failures rest
  end.

Lemma failures_app (c1 c2 : list LogLine) :
  failures (c1 ++ c2) = (failures c1 + failures c2)%nat.
Proof.
  induction c1 as [|[] c1 IH]; simpl; rewrite ?IH; reflexivity.
Qed.

(** What the dedup key of the specification reads off a row: its external
    ids and its tombstone. *)
Definition key (r : FacilityRow) : gmap string string * option timestamp :=
  (external_ids r, deleted_at r).

(** A node inside the coordinate range whose name and phone fit their
    columns. *)
Definition valid_node (e : OSMElement) : Prop :=
  match e with
  | OSMNode _ la lo tags =>
      (-90 <= la)%Q /\ (la <= 90)%Q /\ (-180 <= lo)%Q /\ (lo <= 180)%Q /\
      (String.length (build_name tags (classify tags)) <= 255)%nat /\
      (forall ph, tags !! "phone" = Some ph -> (String.length ph <= 50)%nat)
  | OSMWay _ _ _ => False
  end.

(** A node whose latitude or longitude overflows its column, such as
    latitude 999. *)
Definition overflowing_node (e : OSMElement) : Prop :=
  match e with
  | OSMNode _ la lo _ =>
      (la <= -100)%Q \/ (100 <= la)%Q \/ (lo <= -1000)%Q \/ (1000 <= lo)%Q
  | OSMWay _ _ _ => False
  end.

Lemma classify_in_catalog (tags : gmap string string) : in_catalog (classify tags).
Proof.
  unfold classify, in_catalog.
  repeat match goal with |- context [if ?c then _ else _] => destruct c end;
    simpl; tauto.
Qed.

Section ImportLoop.

Variable axios_post : nat -> string -> OverpassQuery -> Error + OSMResponse.
Variable uuid_generate_v4 : nat -> uuid.
Variable CURRENT_TIMESTAMP : nat -> timestamp.

Local Abbreviation new_row := (Store.new_row uuid_generate_v4 CURRENT_TIMESTAMP).
Local Abbreviation insert := (Store.insert uuid_generate_v4 CURRENT_TIMESTAMP).
Local Abbreviation createFacility := (Store.createFacility uuid_generate_v4 CURRENT_TIMESTAMP).
Local Abbreviation rateLimitedRequest := (Ingest.rateLimitedRequest axios_post).
Local Abbreviation fetchOSMFacilities := (Ingest.fetchOSMFacilities axios_post).
Local Abbreviation import_element :=
  (Ingest.import_element uuid_generate_v4 CURRENT_TIMESTAMP).
Local Abbreviation import_elements :=
  (Ingest.import_elements uuid_generate_v4 CURRENT_TIMESTAMP).
Local Abbreviation importOSMFacilities :=
  (Ingest.importOSMFacilities axios_post uuid_generate_v4 CURRENT_TIMESTAMP).
Local Abbreviation syncOSMDataForArea :=
  (Ingest.syncOSMDataForArea axios_post uuid_generate_v4 CURRENT_TIMESTAMP).

(** ** The fetch *)

(** A single caller sends exactly one request, at a time [t] that leaves
    the gate's interval since [lastRequestTime], and gets the provider's
    answer to that request. *)
Lemma rateLimitedRequest_spec (url : string) (data : OverpassQuery) (w : World) :
  exists t,
    rateLimitedRequest url data w =
      ({| now := t; lastRequestTime := t; timers := timers w; posts := t :: posts w |},
       axios_post (length (posts w)) url data) /\
    now w <= t /\ lastRequestTime w + Config.rateLimitMs <= t.
Proof.
  unfold Ingest.rateLimitedRequest. cbv zeta.
  destruct (Z.ltb_spec (now w - lastRequestTime w) Config.rateLimitMs) as [Hlt|Hge].
  - rewrite (step_call_waits w Hlt).
    set (due := lastRequestTime w + Config.rateLimitMs).
    cbn [timers now]. rewrite (list_lookup_middle (timers w) [] due _ eq_refl).
    cbn [step timers now lastRequestTime posts].
    rewrite (list_lookup_middle (timers w) [] due _ eq_refl).
    assert (Hnow : now w + Z.of_nat (Z.to_nat (due - now w)) = due)
      by (rewrite Z2Nat.id; unfold due; lia).
    rewrite Hnow, Z.leb_refl. unfold post. cbn [now timers posts lastRequestTime].
    rewrite (delete_middle (timers w) [] due), app_nil_r.
    exists due. split; [reflexivity|]. unfold due. lia.
  - rewrite (step_call_passes w Hge). unfold post. cbn [timers].
    rewrite (lookup_ge_None_2 (timers w)) by lia.
    exists (now w). split; [reflexivity|]. lia.
Qed.

(** The request [fetchOSMFacilities] sends, as the provider sees it. *)
Definition answer (lat lng radius : JS.number) (w : World) : Error + OSMResponse :=
  axios_post (length (posts w)) Config.overpassUrl (buildOverpassQuery lat lng radius).

Lemma fetchOSMFacilities_spec (lat lng radius : JS.number) (w : World) :
  exists t,
    let w' := {| now := t; lastRequestTime := t; timers := timers w;
                 posts := t :: posts w |} in
    fetchOSMFacilities lat lng radius w =
      match answer lat lng radius w with
      | inr data => (w', [fetching_data lat lng radius], inr data)
      | inl error =>
          (w', [fetching_data lat lng radius; error_fetching (message error)],
           inl (mkError ("Failed to fetch OSM data: " ++ message error)))
      end.
Proof.
  destruct (rateLimitedRequest_spec Config.overpassUrl
              (buildOverpassQuery lat lng radius) w) as (t & Hr & _).
  exists t. unfold Ingest.fetchOSMFacilities, answer. cbv zeta. rewrite Hr.
  destruct (axios_post _ _ _); reflexivity.
Qed.

(** C5 (as the code has it): [fetchOSMFacilities] sends exactly one request.
    Its outcome is decided by the provider's answer to that request alone:
    the data on success; on a transport failure the error, logged and
    rethrown at once as [Failed to fetch OSM data: ...], with no second
    attempt and no backoff.  The error is not swallowed:
    [importOSMFacilities] lets it escape and leaves the store as it was. *)
Theorem C5_fetch_sends_one_request_and_rethrows (lat lng radius : JS.number)
    (w : World) (d : DB) :
  length (posts (fst (fst (fetchOSMFacilities lat lng radius w)))) = S (length (posts w)) /\
  snd (fetchOSMFacilities lat lng radius w) =
    match answer lat lng radius w with
    | inr data => inr data
    | inl error => inl (mkError ("Failed to fetch OSM data: " ++ message error))
    end /\
  (forall error, answer lat lng radius w = inl error ->
     snd (importOSMFacilities lat lng (Some radius) w d) =
       inl (mkError ("Failed to fetch OSM data: " ++ message error)) /\
     db (snd (fst (importOSMFacilities lat lng (Some radius) w d))) = d).
Proof.
  destruct (fetchOSMFacilities_spec lat lng radius w) as (t & Hf). cbv zeta in Hf.
  split; [rewrite Hf; destruct (answer lat lng radius w); reflexivity|].
  split; [rewrite Hf; destruct (answer lat lng radius w); reflexivity|].
  intros error He. unfold Ingest.importOSMFacilities.
  change (default (JS.Num 1000) (Some radius)) with radius.
  rewrite Hf, He. split; reflexivity.
Qed.

(** ** The import loop *)

Local Open Scope list_scope.

(** [uuid_generate_v4()] does not repeat itself, and none of the ids it is
    still to produce is in the table. *)
Hypothesis uuid_unique : forall n m, uuid_generate_v4 n = uuid_generate_v4 m -> n = m.

Definition supply_fresh (d : DB) : Prop :=
  forall n r, (statements d <= n)%nat -> In r (facilities d) -> id r <> uuid_generate_v4 n.

(** The candidate passes every check of the INSERT that depends on the
    candidate alone (the column types and the foreign key). *)
Definition fits (f : Facility) : bool :=
  match insert empty_db f with
  | inr _ => true
  | inl _ => false
  end.

(** The keys an element adds to the store: one if it is a node whose
    candidate fits, none otherwise. *)
Definition new_keys (e : OSMElement) : list (gmap string string * option timestamp) :=
  match parseOSMElement e with
  | Some f => if fits f then [(externalIds f, None)] else []
  | None => []
  end.

(** Whether the element is a node whose candidate does not fit. *)
Definition fails (e : OSMElement) : bool :=
  match parseOSMElement e with
  | Some f => negb (fits f)
  | None => false
  end.

Lemma fits_spec (f : Facility) :
  if fits f
  then exists r, new_row 0 f = inr r /\ references_facility_types (facility_type_id r) = true
  else (exists e, new_row 0 f = inl e) \/
       (exists r, new_row 0 f = inr r /\ references_facility_types (facility_type_id r) = false).
Proof.
  unfold fits, Store.insert, bind. cbn [statements empty_db].
  destruct (new_row 0 f) as [e|r]; [left; eauto|].
  cbn [guard primary_key_free facilities empty_db forallb].
  destruct (references_facility_types (facility_type_id r)) eqn:Hfk; simpl;
    [exists r; auto | right; exists r; auto].
Qed.

Lemma new_row_type (n m : nat) (f : Facility) (r r' : FacilityRow) :
  new_row n f = inr r -> new_row m f = inr r' -> facility_type_id r = facility_type_id r'.
Proof.
  intros H H'. apply new_row_inv in H, H'.
  destruct H as (_ & (t & Ht & ->) & _). destruct H' as (_ & (t' & Ht' & ->) & _).
  congruence.
Qed.

Lemma new_row_succeeds_alike (n m : nat) (f : Facility) (r : FacilityRow) :
  new_row n f = inr r -> exists r', new_row m f = inr r'.
Proof.
  intros H. destruct (new_row m f) as [e|r'] eqn:Hm; [|eauto].
  apply (new_row_fails_alike _ _ m n) in Hm. congruence.
Qed.

(** With fresh ids the outcome of [createFacility] is decided by the
    candidate alone, whatever the table holds. *)
Lemma createFacility_fresh (f : Facility) (d : DB) :
  supply_fresh d ->
  if fits f
  then exists r,
         createFacility f d =
           (mkDB (facilities d ++ [r]) (S (statements d)), inr (id r)) /\
         key r = (externalIds f, None) /\ id r = uuid_generate_v4 (statements d)
  else exists e, createFacility f d = (mkDB (facilities d) (S (statements d)), inl e).
Proof.
  intros Hfresh. pose proof (fits_spec f) as Hfits.
  unfold Store.createFacility, Store.insert, bind.
  destruct (fits f).
  - destruct Hfits as (r0 & Hr0 & Hfk).
    destruct (new_row_succeeds_alike 0 (statements d) f r0 Hr0) as [r Hr].
    rewrite Hr.
    destruct (new_row_inv _ _ _ _ _ Hr) as (Hid & _ & _ & _ & Hext & Hdel).
    assert (Hpk : primary_key_free d (id r) = true).
    { apply primary_key_free_spec. intros x Hx. rewrite Hid.
      apply (Hfresh _ x); [lia | exact Hx]. }
    rewrite Hpk. simpl.
    rewrite (new_row_type _ _ _ _ _ Hr Hr0), Hfk. simpl.
    exists r. unfold key. rewrite Hext, Hdel. auto.
  - destruct Hfits as [[e He]|(r0 & Hr0 & Hfk)].
    + rewrite (new_row_fails_alike _ _ 0 (statements d) f e He). eauto.
    + destruct (new_row_succeeds_alike 0 (statements d) f r0 Hr0) as [r Hr].
      rewrite Hr. destruct (guard (primary_key_free d (id r)) unique_violation); [eauto|].
      rewrite (new_row_type _ _ _ _ _ Hr Hr0), Hfk. simpl. eauto.
Qed.

Lemma supply_fresh_tick (d : DB) :
  supply_fresh d -> supply_fresh (mkDB (facilities d) (S (statements d))).
Proof.
  intros H n r Hn Hr. simpl in *. apply (H n r); [lia | exact Hr].
Qed.

Lemma supply_fresh_insert (d : DB) (r : FacilityRow) :
  supply_fresh d -> id r = uuid_generate_v4 (statements d) ->
  supply_fresh (mkDB (facilities d ++ [r]) (S (statements d))).
Proof.
  intros H Hid n x Hn Hx. simpl in *. apply in_app_or in Hx.
  destruct Hx as [Hx|[<-|[]]].
  - apply (H n x); [lia | exact Hx].
  - rewrite Hid. intros Heq. apply uuid_unique in Heq. lia.
Qed.

(** One turn of the loop. *)
Lemma import_element_spec (s : Loop) (e : OSMElement) :
  supply_fresh (db s) ->
  supply_fresh (db (import_element s e)) /\
  map key (facilities (db (import_element s e))) = map key (facilities (db s)) ++ new_keys e /\
  importedCount (import_element s e) = (importedCount s + length (new_keys e))%nat /\
  failures (console (import_element s e)) =
    (failures (console s) + if fails e then 1 else 0)%nat.
Proof.
  intros Hfresh. unfold Ingest.import_element, new_keys, fails.
  destruct (parseOSMElement e) as [f|].
  - pose proof (createFacility_fresh f (db s) Hfresh) as Hc.
    destruct (fits f).
    + destruct Hc as (r & -> & Hkey & Hid). cbn [db importedCount console negb].
      split; [apply supply_fresh_insert; assumption|].
      split; [cbn [facilities]; rewrite map_app; simpl; rewrite Hkey; reflexivity|].
      split; [simpl; lia|].
      rewrite failures_app. reflexivity.
    + destruct Hc as (err & ->). cbn [db importedCount console negb].
      split; [apply supply_fresh_tick; assumption|].
      split; [cbn [facilities]; rewrite app_nil_r; reflexivity|].
      split; [simpl; lia|].
      rewrite failures_app. reflexivity.
  - split; [assumption|]. rewrite app_nil_r. simpl. repeat split; lia.
Qed.

(** The whole loop, from any loop state. *)
Lemma fold_import_spec (els : list OSMElement) (s : Loop) :
  supply_fresh (db s) ->
  let s' := fold_left import_element els s in
  supply_fresh (db s') /\
  map key (facilities (db s')) = map key (facilities (db s)) ++ flat_map new_keys els /\
  importedCount s' = (importedCount s + length (flat_map new_keys els))%nat /\
  failures (console s') = (failures (console s) + length (List.filter fails els))%nat.
Proof.
  revert s. induction els as [|e els IH]; intros s Hfresh; simpl.
  - rewrite app_nil_r. repeat split; try assumption; lia.
  - destruct (import_element_spec s e Hfresh) as (Hf & Hk & Hc & Hl).
    destruct (IH _ Hf) as (Hf' & Hk' & Hc' & Hl').
    split; [exact Hf'|].
    split; [rewrite Hk', Hk, <- app_assoc; reflexivity|].
    split; [rewrite Hc', Hc, length_app; lia|].
    rewrite Hl', Hl. destruct (fails e); simpl; lia.
Qed.

Lemma import_elements_spec (els : list OSMElement) (d : DB) (lines : list LogLine) :
  supply_fresh d ->
  supply_fresh (db (import_elements els d lines)) /\
  map key (facilities (db (import_elements els d lines)))
    = map key (facilities d) ++ flat_map new_keys els /\
  importedCount (import_elements els d lines) = length (flat_map new_keys els) /\
  failures (console (import_elements els d lines))
    = (failures lines + length (List.filter fails els))%nat.
Proof.
  intros H. apply (fold_import_spec els (mkLoop d 0 lines) H).
Qed.

Lemma new_keys_live (els : list OSMElement) :
  List.Forall (fun k => snd k = None) (flat_map new_keys els).
Proof.
  apply List.Forall_forall. intros k Hk. apply in_flat_map in Hk.
  destruct Hk as (e & _ & Hk). unfold new_keys in Hk.
  destruct (parseOSMElement e) as [f|]; [|destruct Hk].
  destruct (fits f); [|destruct Hk]. destruct Hk as [<-|[]]. reflexivity.
Qed.

(** A run whose fetch succeeds is the loop over the elements received. *)
Lemma importOSMFacilities_spec (lat lng : JS.number) (radius : option JS.number)
    (w : World) (d : DB) (osmData : OSMResponse) :
  answer lat lng (default (JS.Num 1000) radius) w = inr osmData ->
  exists w' lines,
    let s := import_elements (elements osmData) d lines in
    importOSMFacilities lat lng radius w d =
      (w',
       {| db := db s; importedCount := importedCount s;
          console := console s ++ [imported_total (importedCount s)] |},
       inr (importedCount s)) /\
    failures lines = 0%nat /\
    length (posts w') = S (length (posts w)).
Proof.
  intros Ha. destruct (fetchOSMFacilities_spec lat lng (default (JS.Num 1000) radius) w)
    as (t & Hf). cbv zeta in Hf. rewrite Ha in Hf.
  do 2 eexists. cbv zeta. unfold Ingest.importOSMFacilities. rewrite Hf.
  split; [reflexivity|]. split; reflexivity.
Qed.

(** So is a sync whose fetch succeeds. *)
Lemma syncOSMDataForArea_spec (lat lng : JS.number) (radius : option JS.number)
    (w : World) (d : DB) (osmData : OSMResponse) :
  answer lat lng (default (JS.Num 5000) radius) w = inr osmData ->
  exists w' lines,
    let s := import_elements (elements osmData) d [] in
    syncOSMDataForArea lat lng radius w d =
      (w', db s, lines, inr (length (elements osmData), importedCount s)).
Proof.
  intros Ha. destruct (fetchOSMFacilities_spec lat lng (default (JS.Num 5000) radius) w)
    as (t & Hf). cbv zeta in Hf. rewrite Ha in Hf.
  do 2 eexists. cbv zeta. unfold Ingest.syncOSMDataForArea. rewrite Hf. reflexivity.
Qed.

(** C2 (as the code has it): the import loop makes no lookup before it
    writes.  When the provider returns the same elements to two successive
    runs, and ids never repeat, the second run imports as many facilities as
    the first and appends to the store, once more, a non-tombstoned row for
    every key (external ids) the first run appended: every facility the
    first run created is duplicated. *)
Theorem C2_reimport_appends_every_facility_again (lat lng : JS.number)
    (radius : option JS.number) (w : World) (d : DB) (osmData again : OSMResponse)
    (w1 w2 : World) (s1 s2 : Loop) (r1 r2 : Error + nat) :
  supply_fresh d ->
  answer lat lng (default (JS.Num 1000) radius) w = inr osmData ->
  importOSMFacilities lat lng radius w d = (w1, s1, r1) ->
  answer lat lng (default (JS.Num 1000) radius) w1 = inr again ->
  elements again = elements osmData ->
  importOSMFacilities lat lng radius w1 (db s1) = (w2, s2, r2) ->
  exists n,
    r1 = inr n /\
    r2 = inr n /\
    length (drop (length (facilities d)) (map key (facilities (db s1)))) = n /\
    map key (facilities (db s2))
      = map key (facilities (db s1))
        ++ drop (length (facilities d)) (map key (facilities (db s1))) /\
    List.Forall (fun k => snd k = None)
      (drop (length (facilities d)) (map key (facilities (db s1)))).
Proof.
  intros Hd Ha Hrun1 Ha2 Hels Hrun2.
  destruct (importOSMFacilities_spec lat lng radius w d osmData Ha)
    as (w1' & lines1 & H1 & _ & _). cbv zeta in H1.
  rewrite H1 in Hrun1. injection Hrun1 as <- <- <-. cbn [db] in *.
  destruct (importOSMFacilities_spec lat lng radius w1'
              (db (import_elements (elements osmData) d lines1)) again Ha2)
    as (w2' & lines2 & H2 & _ & _). cbv zeta in H2.
  rewrite H2, Hels in Hrun2. injection Hrun2 as <- <- <-. cbn [db].
  destruct (import_elements_spec (elements osmData) d lines1 Hd) as (Hfresh1 & Hk1 & Hc1 & _).
  destruct (import_elements_spec (elements osmData) _ lines2 Hfresh1) as (_ & Hk2 & Hc2 & _).
  assert (Happ : drop (length (facilities d))
                   (map key (facilities (db (import_elements (elements osmData) d lines1))))
                 = flat_map new_keys (elements osmData)).
  { rewrite Hk1, <- (length_map key (facilities d)). apply drop_app_length. }
  rewrite Happ. exists (length (flat_map new_keys (elements osmData))).
  repeat split.
  - congruence.
  - congruence.
  - exact Hk2.
  - apply new_keys_live.
Qed.

(** ** Batches with one bad element *)

Lemma valid_node_fits (e : OSMElement) :
  valid_node e -> length (new_keys e) = 1%nat /\ fails e = false.
Proof.
  destruct e as [i la lo tags|]; [|intros []].
  intros (Hla1 & Hla2 & Hlo1 & Hlo2 & Hname & Hphone).
  unfold new_keys, fails.
  destruct (parseOSMElement (OSMNode i la lo tags)) as [f|] eqn:Hf; [|discriminate].
  injection Hf as Hf.
  assert (Hacc : exists r, new_row 0 f = inr r /\ facility_type_id r = Some (facilityTypeId f)).
  { apply new_row_accepts; subst f; cbn [name facilityTypeId location lat lng phone
                                           dataQualityScore].
    - exact Hname.
    - apply classify_in_catalog.
    - apply (Qle_trans _ (-90)); [discriminate | exact Hla1].
    - apply (Qle_trans _ 90); [exact Hla2 | discriminate].
    - apply (Qle_trans _ (-180)); [discriminate | exact Hlo1].
    - apply (Qle_trans _ 180); [exact Hlo2 | discriminate].
    - exact Hphone.
    - intros sc [= <-]. split; discriminate. }
  destruct Hacc as (r & Hr & Ht).
  pose proof (fits_spec f) as Hfits. destruct (fits f); [split; reflexivity|].
  exfalso. destruct Hfits as [[err He]|(r0 & Hr0 & Hfk)]; [congruence|].
  assert (r0 = r) by congruence. subst r0.
  rewrite Ht in Hfk. subst f. cbn [facilityTypeId] in Hfk.
  rewrite (proj2 (references_spec _) (classify_in_catalog tags)) in Hfk. discriminate.
Qed.

Lemma overflowing_node_fails (e : OSMElement) :
  overflowing_node e -> new_keys e = [] /\ fails e = true.
Proof.
  destruct e as [i la lo tags|]; [|intros []].
  intros H. unfold new_keys, fails.
  destruct (parseOSMElement (OSMNode i la lo tags)) as [f|] eqn:Hf; [|discriminate].
  injection Hf as Hf.
  destruct (new_row_rejects_coordinates uuid_generate_v4 CURRENT_TIMESTAMP 0 f) as [err He].
  { subst f. exact H. }
  pose proof (fits_spec f) as Hfits. destruct (fits f); [|split; reflexivity].
  destruct Hfits as (r & Hr & _). congruence.
Qed.

Lemma valid_nodes_all_fit (els : list OSMElement) :
  List.Forall valid_node els ->
  length (flat_map new_keys els) = length els /\ List.filter fails els = [].
Proof.
  induction 1 as [|e els He _ [IH1 IH2]]; [split; reflexivity|].
  destruct (valid_node_fits e He) as [H1 H2]. simpl.
  rewrite length_app, H1, IH1, H2. split; [reflexivity | exact IH2].
Qed.


End ImportLoop.

End ImportFacts.

Module ImportExamples.
Import Schema Store Ingest CreateFacts GateFacts ImportFacts.

(** An id generator that counts, and a clock that stands still. *)
Definition counting_ids (n : nat) : uuid := Z.of_nat n.
Definition standing_clock (n : nat) : timestamp := 1700000000.

Definition toilet_node (i : Z) (la lo : Q) : OSMElement :=
  OSMNode i la lo {[ "amenity" := "toilets"; "toilets:wheelchair" := "yes" ]}.

(** Five toilets around Berlin centre; the third has latitude 999. *)
Definition batch : list OSMElement :=
  [ toilet_node 1 (52520 # 1000) (13405 # 1000);
    toilet_node 2 (52521 # 1000) (13406 # 1000);
    toilet_node 3 (999 # 1) (13407 # 1000);
    toilet_node 4 (52523 # 1000) (13408 # 1000);
    toilet_node 5 (52524 # 1000) (13409 # 1000) ].

(** The same batch without the malformed element. *)
Definition clean_batch : list OSMElement :=
  [ toilet_node 1 (52520 # 1000) (13405 # 1000);
    toilet_node 2 (52521 # 1000) (13406 # 1000);
    toilet_node 4 (52523 # 1000) (13408 # 1000);
    toilet_node 5 (52524 # 1000) (13409 # 1000) ].

Definition overpass (els : list OSMElement) : OSMResponse :=
  {| version := 6 # 10; generator := "Overpass API";
     timestamp_osm_base := "2025-11-05T12:00:00Z"; copyright := "OpenStreetMap contributors";
     elements := els |}.

(** A provider that always answers with [els]. *)
Definition answers (els : list OSMElement) (n : nat) (url : string) (data : OverpassQuery)
  : Error + OSMResponse :=
  inr (overpass els).

(** A provider whose first answer is a timeout and that answers with [els]
    from then on. *)
Definition fails_once (els : list OSMElement) (n : nat) (url : string)
    (data : OverpassQuery) : Error + OSMResponse :=
  match n with
  | O => inl (mkError "timeout of 30000ms exceeded")
  | S _ => inr (overpass els)
  end.

Lemma counting_ids_unique (n m : nat) : counting_ids n = counting_ids m -> n = m.
Proof. apply Nat2Z.inj. Qed.

Lemma empty_db_fresh : supply_fresh counting_ids empty_db.
Proof. intros n r _ []. Qed.

Lemma toilet_node_valid (i : Z) (la lo : Q) :
  (-90 <= la)%Q -> (la <= 90)%Q -> (-180 <= lo)%Q -> (lo <= 180)%Q ->
  valid_node (toilet_node i la lo).
Proof.
  intros H1 H2 H3 H4. repeat (split; [assumption|]). split.
  - apply Nat.leb_le. vm_compute. reflexivity.
  - intros ph H. vm_compute in H. discriminate H.
Qed.

(** [POST /osm/import?lat=52.52&lng=13.405&radius=1000] at noon, against a
    provider that answers with [els], into the store [d]. *)
Definition import_berlin (els : list OSMElement) (w : World) (d : DB)
  : World * Loop * (Error + nat) :=
  importOSMFacilities (answers els) counting_ids standing_clock
    (JS.Num (5252 # 100)) (JS.Num (13405 # 1000)) (Some (JS.Num 1000)) w d.

(** The import of [batch] into the empty store, and the import of the same
    elements into the store this leaves. *)
Definition first_run : World * Loop * (Error + nat) :=
  import_berlin batch noon empty_db.

Definition second_run : World * Loop * (Error + nat) :=
  import_berlin batch (fst (fst first_run)) (db (snd (fst first_run))).

(** C2, instance: the two runs over [batch] import the same number. *)
Lemma C2_reimport_appends_every_facility_again_witness :
  exists n, snd first_run = inr n /\ snd second_run = inr n.
Proof.
  destruct (C2_reimport_appends_every_facility_again (answers batch) counting_ids
              standing_clock counting_ids_unique
              (JS.Num (5252 # 100)) (JS.Num (13405 # 1000)) (Some (JS.Num 1000))
              noon empty_db (overpass batch) (overpass batch)
              (fst (fst first_run)) (fst (fst second_run))
              (snd (fst first_run)) (snd (fst second_run))
              (snd first_run) (snd second_run))
    as (n & H1 & H2 & _).
  - exact empty_db_fresh.
  - reflexivity.
  - vm_compute. reflexivity.
  - reflexivity.
  - reflexivity.
  - vm_compute. reflexivity.
  - exists n. split; [exact H1 | exact H2].
Defined.

(** C2, the claim as stated fails: the second run over the identical element
    set imports 4 again, not 0, and afterwards each of the four keys is held
    by two non-tombstoned rows. *)
Lemma C2_second_run_imports_everything_again :
  snd first_run = inr 4%nat /\
  snd second_run = inr 4%nat /\
  map (fun r => (external_ids r !! "osm", deleted_at r))
    (facilities (db (snd (fst second_run))))
  = [ (Some "node/1", None); (Some "node/2", None); (Some "node/4", None);
      (Some "node/5", None);
      (Some "node/1", None); (Some "node/2", None); (Some "node/4", None);
      (Some "node/5", None) ].
Proof. vm_compute. repeat split. Qed.

(** [POST /osm/sync] for the same area. *)
Definition sync_berlin (els : list OSMElement) (w : World) (d : DB)
  : World * DB * list LogLine * (Error + nat * nat) :=
  syncOSMDataForArea (answers els) counting_ids standing_clock
    (JS.Num (5252 # 100)) (JS.Num (13405 # 1000)) (Some (JS.Num 1000)) w d.


(** The batch with a way, which the normaliser skips, in place of the
    malformed node. *)
Definition batch_with_way : list OSMElement :=
  [ toilet_node 1 (52520 # 1000) (13405 # 1000);
    toilet_node 2 (52521 # 1000) (13406 # 1000);
    OSMWay 3 [31; 32; 33] {[ "amenity" := "toilets"; "toilets:wheelchair" := "yes" ]};
    toilet_node 4 (52523 # 1000) (13408 # 1000);
    toilet_node 5 (52524 # 1000) (13409 # 1000) ].


(** C5, the claim as stated fails: the first request times out and a second
    one would have been answered, but [fetchOSMFacilities] has sent a single
    request when it throws. *)
Lemma C5_a_failed_fetch_is_not_retried :
  (forall url data, fails_once batch 1 url data = inr (overpass batch)) /\
  snd (fetchOSMFacilities (fails_once batch)
         (JS.Num (5252 # 100)) (JS.Num (13405 # 1000)) (JS.Num 1000) noon)
    = inl (mkError "Failed to fetch OSM data: timeout of 30000ms exceeded") /\
  length (posts (fst (fst (fetchOSMFacilities (fails_once batch)
         (JS.Num (5252 # 100)) (JS.Num (13405 # 1000)) (JS.Num 1000) noon)))) = 1%nat.
Proof. split; [reflexivity|]. vm_compute. repeat split. Qed.

(** The scenario of the specification, on the stand-in distance: one toilet
    tagged [toilets:wheelchair=yes], about 111 m north of the centre, is
    imported; the store then holds one facility of type [toilet] with
    [has_accessible_toilet] set; a search around the centre finds it with
    radius 1000 and finds nothing with radius 10. *)
Example import_then_search :
  let imported :=
    import_berlin [OSMNode 7 (52521 # 1000) (13405 # 1000) {[ "toilets:wheelchair" := "yes" ]}]
      noon empty_db in
  let store := db (snd (fst imported)) in
  let within (r : Q) :=
    Store.searchNearbyFacilities Sample.planar_distance store
      {| Params.lat := 5252 # 100; Params.lng := 13405 # 1000;
         Params.radius := Some (JS.Num r); Params.facilityTypes := None;
         Params.wheelchairAccessible := None;
         Params.limit := None; Params.offset := None |} in
  snd imported = inr 1%nat /\
  map (fun r => (facility_type_id r, has_accessible_toilet r)) (facilities store)
    = [(Some "toilet", Some true)] /\
  sum_map (fun e => e) (map (fun x => (id (Store.row x), Qred (Store.distance x))))
    (within (1000 # 1)%Q)
    = inr [(0, (111 # 1)%Q)] /\
  within (10 # 1)%Q = inr [].
Proof. vm_compute. repeat split. Qed.

End ImportExamples.

(* ================================================================== *)
(** * Properties of the [/nearby] entry point *)
(* ================================================================== *)

Module RouteFacts.
Import Schema Routes.

(** The request [q] with other values for [radius], [limit] and [offset]. *)
Definition with_paging (q : Query.t) (radius limit offset : option string) : Query.t :=
  {| Query.lat := Query.lat q; Query.lng := Query.lng q;
     Query.radius := radius;
     Query.types := Query.types q;
     Query.wheelchairAccessible := Query.wheelchairAccessible q;
     Query.limit := limit; Query.offset := offset |}.

(** C6 (as the code has it): the entry point validates [lat] and [lng] only.
    Whether a request is rejected, and with which reply, does not depend on
    [radius], [limit] or [offset]; and when the request is accepted, the
    search is called with [parseInt] of whatever was given for them, neither
    checked nor clamped. *)
Theorem C6_only_the_coordinates_are_validated (q : Query.t)
    (radius limit offset : option string) :
  match search_params q with
  | inl reply => search_params (with_paging q radius limit offset) = inl reply
  | inr p =>
      search_params (with_paging q radius limit offset) =
        inr {| Params.lat := Params.lat p; Params.lng := Params.lng p;
               Params.radius := if_given radius JS.parseInt;
               Params.facilityTypes := Params.facilityTypes p;
               Params.wheelchairAccessible := Params.wheelchairAccessible p;
               Params.limit := if_given limit JS.parseInt;
               Params.offset := if_given offset JS.parseInt |}
  end.
Proof.
  unfold search_params, with_paging. cbn [Query.lat Query.lng Query.radius Query.types
    Query.wheelchairAccessible Query.limit Query.offset].
  repeat match goal with
         | |- context [if ?c then inl _ else _] => destruct c; [reflexivity|]
         end.
  reflexivity.
Qed.

(** A request for a radius of 999 999 999 m and a page of -1 rows. *)
Definition unbounded_query : Query.t :=
  {| Query.lat := Some "52.52"; Query.lng := Some "13.405";
     Query.radius := Some "999999999"; Query.types := None;
     Query.wheelchairAccessible := None;
     Query.limit := Some "-1"; Query.offset := None |}.

(** C6, the claim as stated fails: the request is not rejected by the entry
    point; the search is called with radius 999 999 999 and limit -1 as
    given, and it is the database that refuses the negative LIMIT, which the
    handler reports as status 500 [Search failed]. *)
Lemma C6_radius_and_limit_reach_the_query_unchecked :
  search_params unbounded_query =
    inr {| Params.lat := 1313 # 25; Params.lng := 2681 # 200;
           Params.radius := Some (JS.Num 999999999);
           Params.facilityTypes := None;
           Params.wheelchairAccessible := None;
           Params.limit := Some (JS.Num (-1));
           Params.offset := None |} /\
  forall (ST_Distance : Point -> Point -> Q) (db : DB),
    nearby ST_Distance db unbounded_query
    = ServerError "Search failed" invalid_row_count_in_limit_clause.
Proof.
  split; [vm_compute; reflexivity|].
  intros ST_Distance db. unfold nearby.
  replace (search_params unbounded_query)
    with (inr (B := Params.t) (A := Reply)
            {| Params.lat := 1313 # 25; Params.lng := 2681 # 200;
               Params.radius := Some (JS.Num 999999999);
               Params.facilityTypes := None;
               Params.wheelchairAccessible := None;
               Params.limit := Some (JS.Num (-1));
               Params.offset := None |})
    by (vm_compute; reflexivity).
  reflexivity.
Qed.

End RouteFacts.

(* ================================================================== *)
(** * Further properties of the tag normaliser *)
(* ================================================================== *)

Module CandidateFacts.
Import Schema Normalizer Store CreateFacts ImportFacts.

Lemma append_not_empty (a b : string) : b <> "" -> a ++ b <> "".
Proof. destruct a; simpl; [auto | discriminate]. Qed.

Lemma join_not_empty (sep p : string) (rest : list string) :
  p <> "" -> JS.join sep (p :: rest) <> "".
Proof.
  destruct p as [|c p]; [congruence|]. intros _. destruct rest; simpl; discriminate.
Qed.

Lemma truthy_default (o : option string) (d : string) :
  JS.truthy o = true -> default d o <> "" /\ o = Some (default d o).
Proof.
  destruct o as [[|c s]|]; simpl; intros H; try discriminate H.
  split; [discriminate | reflexivity].
Qed.

Lemma join_is_not_empty (sep p : string) (rest : list string) :
  p <> "" -> Some (JS.join sep (p :: rest)) <> Some "".
Proof. intros Hp [= H]. exact (join_not_empty sep p rest Hp H). Qed.

Lemma build_name_not_empty (tags : gmap string string) (t : string) :
  build_name tags t <> "".
Proof.
  unfold build_name, JS.or.
  destruct (JS.truthy (tags !! "name")) eqn:Hn.
  - rewrite Hn. apply truthy_default, Hn.
  - destruct (JS.truthy (tags !! "description")) eqn:Hd.
    + apply truthy_default, Hd.
    + simpl. apply append_not_empty. discriminate.
Qed.

(** X2: every candidate the normaliser produces has a non-empty name: the
    [name] tag when it is not empty, else the [description] tag when it is
    not empty, else a name made up from the type and the street. *)
Theorem candidate_name_is_never_empty (element : OSMElement) (f : Facility) :
  parseOSMElement element = Some f ->
  name f <> "" /\
  (forall tags i la lo, element = OSMNode i la lo tags ->
     JS.truthy (tags !! "name") = true -> Some (name f) = tags !! "name").
Proof.
  destruct element as [i la lo tags|]; [|discriminate].
  intros [= <-]. cbn [name]. split; [apply build_name_not_empty|].
  intros tags' i' la' lo' [= _ _ _ <-] Hn.
  unfold build_name, JS.or. rewrite Hn, Hn.
  symmetry. apply truthy_default, Hn.
Qed.

(** X2, instance: a toilet without a name on Unter den Linden. *)
Lemma candidate_name_is_never_empty_witness :
  exists f,
    parseOSMElement
      (OSMNode 7 (5252 # 100) (13405 # 1000)
         {[ "amenity" := "toilets"; "addr:street" := "Unter den Linden" ]}) = Some f /\
    name f = "Toilet at Unter den Linden" /\ name f <> "".
Proof.
  eexists. split; [reflexivity|]. split; [vm_compute; reflexivity|].
  eapply (candidate_name_is_never_empty
            (OSMNode 7 (5252 # 100) (13405 # 1000)
               {[ "amenity" := "toilets"; "addr:street" := "Unter den Linden" ]})).
  reflexivity.
Defined.

(** ** The external id *)

(** X3: the external id of a candidate identifies the OSM node it was made
    from: two candidates carry the same [externalIds] exactly when their
    nodes have the same OSM id, whatever their tags and positions. *)
Theorem external_id_identifies_the_node (i j : Z) (la lo la' lo' : Q)
    (tags tags' : gmap string string) (f g : Facility) :
  parseOSMElement (OSMNode i la lo tags) = Some f ->
  parseOSMElement (OSMNode j la' lo' tags') = Some g ->
  (externalIds f = externalIds g <-> i = j) /\
  externalIds f !! "osm" = Some ("node/" ++ pretty i).
Proof.
  intros [= <-] [= <-]. cbn [externalIds]. split; [split|].
  - intros H. apply (f_equal (fun m => m !! "osm")) in H.
    rewrite !lookup_singleton_eq in H.
    injection H as H. exact (pretty_Z_inj _ _ H).
  - intros ->. reflexivity.
  - apply lookup_singleton_eq.
Qed.

(** X3, instance: nodes 1 and 2 at the same place with the same tags. *)
Lemma external_id_identifies_the_node_witness :
  exists f g,
    parseOSMElement (OSMNode 1 (5252 # 100) (13405 # 1000) {[ "amenity" := "toilets" ]})
      = Some f /\
    parseOSMElement (OSMNode 2 (5252 # 100) (13405 # 1000) {[ "amenity" := "toilets" ]})
      = Some g /\
    externalIds f <> externalIds g /\
    externalIds f !! "osm" = Some "node/1".
Proof.
  do 2 eexists. split; [reflexivity|]. split; [reflexivity|].
  destruct (external_id_identifies_the_node 1 2 (5252 # 100) (13405 # 1000)
              (5252 # 100) (13405 # 1000)
              {[ "amenity" := "toilets" ]} {[ "amenity" := "toilets" ]} _ _
              eq_refl eq_refl) as [H1 H2].
  split; [|exact H2].
  intros H. apply H1 in H. discriminate H.
Defined.

(** ** The address *)

(** X4: the address of a candidate is left undefined exactly when none of
    the tags [addr:housenumber], [addr:street], [addr:city] and
    [addr:postcode] has a non-empty value; an address that is set is never
    the empty string. *)
Theorem address_is_absent_or_not_empty (tags : gmap string string) :
  (build_address tags = None <->
   JS.truthy (tags !! "addr:housenumber") = false /\
   JS.truthy (tags !! "addr:street") = false /\
   JS.truthy (tags !! "addr:city") = false /\
   JS.truthy (tags !! "addr:postcode") = false) /\
  build_address tags <> Some "".
Proof.
  unfold build_address, push_if_truthy.
  destruct (JS.truthy (tags !! "addr:housenumber")) eqn:H1;
    destruct (JS.truthy (tags !! "addr:street")) eqn:H2;
    destruct (JS.truthy (tags !! "addr:city")) eqn:H3;
    destruct (JS.truthy (tags !! "addr:postcode")) eqn:H4;
    cbn [app length Nat.ltb Nat.leb];
    (split; [split; [try discriminate; auto | intros (? & ? & ? & ?); try discriminate; auto]|]);
    try discriminate;
    apply join_is_not_empty; eapply truthy_default; eassumption.
Qed.

(** ** What can go wrong when a candidate is stored *)

Lemma varchar_error (n : nat) (s : string) (e : DbError) :
  varchar n s = inl e -> e = string_data_right_truncation.
Proof.
  unfold varchar. destruct (_ <=? _)%nat; [discriminate|].
  destruct (forallb _ _); [discriminate|]. congruence.
Qed.

Lemma decimal_error (p s : nat) (q : Q) (e : DbError) :
  decimal p s q = inl e -> e = numeric_value_out_of_range.
Proof. unfold decimal. destruct (_ <? _); [discriminate | congruence]. Qed.

Section Storing.

Variable uuid_generate_v4 : nat -> uuid.
Variable CURRENT_TIMESTAMP : nat -> timestamp.

Local Abbreviation new_row := (Store.new_row uuid_generate_v4 CURRENT_TIMESTAMP).
Local Abbreviation insert := (Store.insert uuid_generate_v4 CURRENT_TIMESTAMP).
Local Abbreviation createFacility := (Store.createFacility uuid_generate_v4 CURRENT_TIMESTAMP).

(** Building the VALUES list fails on a column type only. *)
Lemma new_row_error (n : nat) (f : Facility) (e : DbError) :
  new_row n f = inl e ->
  e = string_data_right_truncation \/ e = numeric_value_out_of_range.
Proof.
  unfold Store.new_row, bind, optional.
  destruct (varchar 255 (name f)) eqn:H1; [intros [= <-]; left; eapply varchar_error, H1|].
  destruct (varchar 50 (facilityTypeId f)) eqn:H2;
    [intros [= <-]; left; eapply varchar_error, H2|].
  destruct (decimal 10 8 _) eqn:H3; [intros [= <-]; right; eapply decimal_error, H3|].
  destruct (decimal 11 8 _) eqn:H4; [intros [= <-]; right; eapply decimal_error, H4|].
  destruct (phone f) as [ph|].
  - unfold bind. destruct (varchar 50 ph) eqn:H5;
      [intros [= <-]; left; eapply varchar_error, H5|].
    destruct (dataQualityScore f) as [sc|]; [|discriminate].
    destruct (decimal 3 2 sc) eqn:H6; [intros [= <-]; right; eapply decimal_error, H6|].
    discriminate.
  - destruct (dataQualityScore f) as [sc|]; [|discriminate].
    unfold bind. destruct (decimal 3 2 sc) eqn:H6;
      [intros [= <-]; right; eapply decimal_error, H6|].
    discriminate.
Qed.

(** X5: the type the normaliser assigns is always one of the six rows of
    [facility_types].  Hence storing a candidate it produced never fails on
    the foreign key: [createFacility] can only fail because a text is too
    long for its column, a number overflows its column, or the generated id
    is already taken. *)
Theorem candidate_type_is_in_the_catalog (element : OSMElement) (f : Facility)
    (db : DB) (e : DbError) :
  parseOSMElement element = Some f ->
  in_catalog (facilityTypeId f) /\
  (snd (createFacility f db) = inl e ->
   e = string_data_right_truncation \/ e = numeric_value_out_of_range \/
   e = unique_violation).
Proof.
  destruct element as [i la lo tags|]; [|discriminate].
  intros [= <-]. cbn [facilityTypeId]. split; [apply classify_in_catalog|].
  unfold Store.createFacility, Store.insert, bind.
  match goal with |- context [new_row ?n ?f] => destruct (new_row n f) as [e0|r] eqn:Hr end.
  - simpl. intros [= <-]. apply new_row_error in Hr. tauto.
  - destruct (primary_key_free db (id r)); simpl; [|intros [= <-]; auto].
    apply new_row_inv in Hr. destruct Hr as (_ & (t & Ht & ->) & _).
    cbn [facilityTypeId] in Ht.
    rewrite (varchar_fits 50 (classify tags)) in Ht
      by (pose proof (in_catalog_short _ (classify_in_catalog tags)); lia).
    injection Ht as <-.
    rewrite (proj2 (references_spec _) (classify_in_catalog tags)). simpl. discriminate.
Qed.

End Storing.

(** X5, instance: a toilet at latitude 999 is refused for the overflow of
    the [lat] column. *)
Lemma candidate_type_is_in_the_catalog_witness :
  exists f,
    parseOSMElement (OSMNode 3 (999 # 1) (13407 # 1000) {[ "amenity" := "toilets" ]})
      = Some f /\
    in_catalog (facilityTypeId f) /\
    snd (Store.createFacility (fun n => Z.of_nat n) (fun _ => 0) f empty_db)
      = inl numeric_value_out_of_range /\
    (numeric_value_out_of_range = string_data_right_truncation \/
     numeric_value_out_of_range = numeric_value_out_of_range \/
     numeric_value_out_of_range = unique_violation).
Proof.
  eexists. split; [reflexivity|].
  destruct (candidate_type_is_in_the_catalog (fun n => Z.of_nat n) (fun _ => 0)
              (OSMNode 3 (999 # 1) (13407 # 1000) {[ "amenity" := "toilets" ]})
              _ empty_db numeric_value_out_of_range eq_refl) as [H1 H2].
  split; [exact H1|]. split; [vm_compute; reflexivity|].
  apply H2. vm_compute. reflexivity.
Defined.

End CandidateFacts.

(* ================================================================== *)
(** * Further properties of the store operations *)
(* ================================================================== *)

Module StoreFacts.
Import Schema Store SearchFacts CreateFacts.

(** ** Rounding of [DECIMAL] columns *)

Lemma round_scaled_close (s : nat) (q : Q) :
  2 * Z.abs (round_scaled s q * Z.pos (Qden q) - Qnum q * 10 ^ Z.of_nat s)
  <= Z.pos (Qden q).
Proof.
  destruct q as [n d]. unfold round_scaled. cbn [Qnum Qden].
  set (m := n * 10 ^ Z.of_nat s). set (D := Z.pos d).
  assert (HD : 0 < D) by (unfold D; lia).
  pose proof (Z.mul_div_le (2 * Z.abs m + D) (2 * D) ltac:(lia)) as Hlo.
  pose proof (Z.mul_succ_div_gt (2 * Z.abs m + D) (2 * D) ltac:(lia)) as Hhi.
  set (X := (2 * Z.abs m + D) / (2 * D)) in *.
  destruct (Z.sgn_spec m) as [[Hm ->]|[[Hm ->]|[Hm ->]]]; nia.
Qed.

(** What a [DECIMAL(p, s)] column stores is within half a unit of the last
    place of the value assigned. *)
Lemma decimal_close (p s : nat) (q v : Q) :
  decimal p s q = inr v ->
  (Qabs (v - q) <= 1 # (2 * Z.to_pos (10 ^ Z.of_nat s)))%Q.
Proof.
  unfold decimal. destruct (_ <? _); [|discriminate]. intros [= <-].
  pose proof (round_scaled_close s q) as H.
  assert (HK : 0 < 10 ^ Z.of_nat s) by (apply Z.pow_pos_nonneg; lia).
  destruct q as [n d]. cbn [Qnum Qden] in H.
  unfold Qminus, Qplus, Qopp, Qabs, Qle. cbn [Qnum Qden].
  rewrite !Pos2Z.inj_mul, Z2Pos.id by exact HK.
  set (K := 10 ^ Z.of_nat s) in *. set (r := round_scaled s (n # d)) in *.
  replace (r * Z.pos d + - n * K) with (r * Z.pos d - n * K) by ring.
  nia.
Qed.

(** ** [createFacility], then [getFacilityById] *)

Lemma filter_by_id_fresh (l : list FacilityRow) (i : uuid) :
  (forall r, In r l -> id r <> i) ->
  List.filter (fun r => Z.eqb (id r) i && not_deleted r) l = [].
Proof.
  induction l as [|y l IH]; intros H; simpl; [reflexivity|].
  destruct (Z.eqb_spec (id y) i) as [Heq|_].
  - exfalso. apply (H y); [left; reflexivity | exact Heq].
  - simpl. apply IH. intros r Hr. apply H. right. exact Hr.
Qed.

Lemma NoDup_snoc {A : Type} (l : list A) (x : A) :
  List.NoDup l -> ~ In x l -> List.NoDup (l ++ [x]).
Proof.
  induction 1 as [|y l Hy Hl IH]; intros Hx; simpl.
  - constructor; [intros [] | constructor].
  - constructor.
    + intros Hin. apply in_app_or in Hin. destruct Hin as [Hin|[->|[]]].
      * exact (Hy Hin).
      * apply Hx. left. reflexivity.
    + apply IH. intros Hin. apply Hx. right. exact Hin.
Qed.

(** With a unique primary key, looking a live row up by its id finds it. *)
Lemma getFacilityById_finds (db : DB) (r : FacilityRow) :
  List.NoDup (map id (facilities db)) -> In r (facilities db) -> deleted_at r = None ->
  getFacilityById db (id r) = Some r.
Proof.
  unfold getFacilityById. generalize (facilities db) as l.
  induction l as [|y l IH]; intros Hnd Hin Hdel; [destruct Hin|].
  simpl in Hnd. inversion Hnd as [|? ? Hy Hl]; subst. simpl.
  destruct (Z.eqb_spec (id y) (id r)) as [Heq|Hne].
  - assert (y = r) as ->.
    { destruct Hin as [Hin|Hin]; [exact Hin|]. exfalso. apply Hy. rewrite Heq.
      apply in_map, Hin. }
    rewrite (proj2 (not_deleted_spec r) Hdel). reflexivity.
  - simpl. apply IH; [exact Hl | | exact Hdel].
    destruct Hin as [->|Hin]; [congruence | exact Hin].
Qed.

Section RoundTrip.

Variable uuid_generate_v4 : nat -> uuid.
Variable CURRENT_TIMESTAMP : nat -> timestamp.
Variable ST_Distance : Point -> Point -> Q.

Local Abbreviation new_row := (Store.new_row uuid_generate_v4 CURRENT_TIMESTAMP).
Local Abbreviation insert := (Store.insert uuid_generate_v4 CURRENT_TIMESTAMP).
Local Abbreviation createFacility := (Store.createFacility uuid_generate_v4 CURRENT_TIMESTAMP).
Local Abbreviation matching := (Store.matching ST_Distance).
Local Abbreviation select := (Store.select ST_Distance).
Local Abbreviation searchNearbyFacilities := (Store.searchNearbyFacilities ST_Distance).

(** A successful INSERT appends the row it built, whose id was free. *)
Lemma createFacility_inv (f : Facility) (db db' : DB) (i : uuid) :
  createFacility f db = (db', inr i) ->
  exists r,
    new_row (statements db) f = inr r /\
    db' = mkDB (facilities db ++ [r]) (S (statements db)) /\
    id r = i /\ fresh db i.
Proof.
  unfold Store.createFacility, Store.insert, bind.
  destruct (new_row (statements db) f) as [e|r] eqn:Hr; [discriminate|].
  destruct (primary_key_free db (id r)) eqn:Hpk; [|discriminate]. simpl.
  destruct (references_facility_types (facility_type_id r)); [|discriminate]. simpl.
  intros [= <- <-]. exists r. repeat split. apply primary_key_free_spec, Hpk.
Qed.

(** A failed INSERT leaves the rows as they were. *)
Lemma createFacility_failed (f : Facility) (db db' : DB) (e : DbError) :
  createFacility f db = (db', inl e) -> facilities db' = facilities db.
Proof.
  unfold Store.createFacility. destruct (insert db f); intros [= <- _]; reflexivity.
Qed.

(** The columns [lat] and [lng] of a row built by the VALUES list. *)
Lemma new_row_coordinates (n : nat) (f : Facility) (r : FacilityRow) :
  new_row n f = inr r ->
  decimal 10 8 (lat (location f)) = inr (row_lat r) /\
  decimal 11 8 (lng (location f)) = inr (row_lng r).
Proof.
  unfold Store.new_row, bind. cbn [ST_X ST_Y].
  destruct (varchar 255 (name f)); [discriminate|].
  destruct (varchar 50 (facilityTypeId f)); [discriminate|].
  destruct (decimal 10 8 _); [discriminate|].
  destruct (decimal 11 8 _); [discriminate|].
  destruct (optional (varchar 50) (phone f)); [discriminate|].
  destruct (optional (decimal 3 2) (dataQualityScore f)); [discriminate|].
  intros [= <-]. split; reflexivity.
Qed.

(** The columns of a row built by the VALUES list that are the candidate's
    fields as they are. *)
Lemma new_row_columns (n : nat) (f : Facility) (r : FacilityRow) :
  new_row n f = inr r ->
  wheelchair_accessible r = wheelchairAccessible (accessibility f) /\
  has_ramp r = hasRamp (accessibility f) /\
  has_elevator r = hasElevator (accessibility f) /\
  has_accessible_toilet r = hasAccessibleToilet (accessibility f) /\
  has_accessible_parking r = hasAccessibleParking (accessibility f) /\
  has_automatic_door r = hasAutomaticDoor (accessibility f) /\
  row_verified r = Some (verified f) /\
  data_sources r = dataSources f /\
  external_ids r = externalIds f /\
  deleted_at r = None.
Proof.
  unfold Store.new_row, bind.
  destruct (varchar 255 (name f)); [discriminate|].
  destruct (varchar 50 (facilityTypeId f)); [discriminate|].
  destruct (decimal 10 8 _); [discriminate|].
  destruct (decimal 11 8 _); [discriminate|].
  destruct (optional (varchar 50) (phone f)); [discriminate|].
  destruct (optional (decimal 3 2) (dataQualityScore f)); [discriminate|].
  intros [= <-]. cbn. repeat split.
Qed.

(** A successful INSERT stored a row whose type is in the catalog. *)
Lemma createFacility_type (f : Facility) (db db' : DB) (i : uuid) (r : FacilityRow) :
  createFacility f db = (db', inr i) -> new_row (statements db) f = inr r ->
  exists t, facility_type_id r = Some t /\ in_catalog t.
Proof.
  unfold Store.createFacility, Store.insert, bind. intros H Hr. rewrite Hr in H.
  destruct (primary_key_free db (id r)); [|discriminate]. simpl in H.
  destruct (references_facility_types (facility_type_id r)) eqn:Hfk; [|discriminate].
  destruct (facility_type_id r) as [t|] eqn:Ht.
  - exists t. split; [reflexivity | apply references_spec, Hfk].
  - apply new_row_inv in Hr. destruct Hr as (_ & (t & _ & Hrt) & _). congruence.
Qed.


(** The INSERT appends at most one row, and none whose id is taken. *)
Lemma createFacility_appends (f : Facility) (db : DB) :
  exists added,
    facilities (fst (createFacility f db)) = (facilities db ++ added)%list /\
    (length added <= 1)%nat /\
    forall r, In r added -> fresh db (id r).
Proof.
  destruct (createFacility f db) as [db' [e|i]] eqn:H; cbn [fst].
  - rewrite (createFacility_failed f db db' e H).
    exists []. rewrite app_nil_r. split; [reflexivity|]. split; [simpl; lia | intros r []].
  - destruct (createFacility_inv f db db' i H) as (r & _ & -> & Hid & Hfresh).
    exists [r]. split; [reflexivity|]. split; [simpl; lia|].
    intros x [<-|[]]. rewrite Hid. exact Hfresh.
Qed.

(** Appending at most one row whose id is free keeps the ids distinct. *)
Lemma NoDup_ids_append (l added : list FacilityRow) :
  List.NoDup (map id l) -> (length added <= 1)%nat ->
  (forall r, In r added -> forall x, In x l -> id x <> id r) ->
  List.NoDup (map id (l ++ added)).
Proof.
  intros Hnd Hlen Hfresh. destruct added as [|r [|r' added]]; simpl in Hlen; [| |lia].
  - rewrite app_nil_r. exact Hnd.
  - rewrite map_app. apply NoDup_snoc; [exact Hnd|].
    intros Hin. apply in_map_iff in Hin. destruct Hin as (x & Hx & Hin).
    exact (Hfresh r (or_introl eq_refl) x Hin Hx).
Qed.

(** X7: [createFacility] keeps the primary key unique, whether the INSERT
    succeeds or fails; it never removes or changes a row that was there. *)
Theorem createFacility_keeps_ids_unique (f : Facility) (db : DB) :
  List.NoDup (map id (facilities db)) ->
  List.NoDup (map id (facilities (fst (createFacility f db)))) /\
  exists added, facilities (fst (createFacility f db)) = (facilities db ++ added)%list.
Proof.
  intros Hnd. destruct (createFacility_appends f db) as (added & Ha & Hlen & Hfresh).
  split; [|exists added; exact Ha].
  rewrite Ha. apply NoDup_ids_append; [exact Hnd | exact Hlen |].
  intros r Hr x Hx. exact (Hfresh r Hr x Hx).
Qed.

(** X8: with a unique primary key, every facility the nearby search returns
    can be fetched by its id, and the lookup gives the very row the search
    returned. *)
Theorem search_results_are_found_by_id (db : DB) (p : Params.t)
    (page : list FacilityWithDistance) (x : FacilityWithDistance) :
  List.NoDup (map id (facilities db)) ->
  searchNearbyFacilities db p = inr page -> In x page ->
  getFacilityById db (id (row x)) = Some (row x).
Proof.
  intros Hnd Hs Hx.
  destruct (page_In ST_Distance db p page x Hs Hx) as (Hin & (_ & Hdel & _) & _).
  apply getFacilityById_finds; assumption.
Qed.



End RoundTrip.

(** ** [GET /facilities/:id] *)

Lemma getFacilityById_Some (db : DB) (i : uuid) (r : FacilityRow) :
  getFacilityById db i = Some r -> In r (facilities db) /\ id r = i /\ deleted_at r = None.
Proof.
  unfold getFacilityById. intros H. apply head_In, filter_In in H.
  destruct H as [Hin H]. apply andb_true_iff in H. destruct H as [Hid Hdel].
  split; [exact Hin|]. split; [apply Z.eqb_eq, Hid | apply not_deleted_spec, Hdel].
Qed.

Lemma getFacilityById_None (db : DB) (i : uuid) :
  getFacilityById db i = None ->
  forall r, In r (facilities db) -> id r = i -> deleted_at r <> None.
Proof.
  unfold getFacilityById. intros H r Hin Hid Hdel.
  assert (Hr : In r (List.filter (fun r => Z.eqb (id r) i && not_deleted r) (facilities db))).
  { apply filter_In. split; [exact Hin|].
    rewrite (proj2 (Z.eqb_eq _ _) Hid), (proj2 (not_deleted_spec r) Hdel). reflexivity. }
  destruct (List.filter _ _); [destruct Hr | discriminate H].
Qed.

(** X11: what [GET /facilities/:id] replies is decided by the store alone.
    It sends a facility only if that is a stored row with the requested id
    and no tombstone; it sends 404 only if the id is well formed and every
    row with that id, if any, is tombstoned; it sends 500 only if the text
    is not a UUID. *)
Theorem by_id_reply_reflects_the_store (uuid_in : string -> option uuid) (db : DB)
    (s : string) :
  match FacilityRoutes.by_id uuid_in db s with
  | FacilityRoutes.Found r =>
      In r (facilities db) /\ uuid_in s = Some (id r) /\ deleted_at r = None
  | FacilityRoutes.NotFound _ _ =>
      exists i, uuid_in s = Some i /\
                forall r, In r (facilities db) -> id r = i -> deleted_at r <> None
  | FacilityRoutes.ServerError _ _ => uuid_in s = None
  end.
Proof.
  unfold FacilityRoutes.by_id. destruct (uuid_in s) as [i|]; [|reflexivity].
  destruct (getFacilityById db i) as [r|] eqn:H.
  - apply getFacilityById_Some in H. destruct H as (Hin & <- & Hdel). auto.
  - exists i. split; [reflexivity | apply getFacilityById_None, H].
Qed.

End StoreFacts.

Module StoreExamples.
Import Schema Store SearchFacts CreateFacts StoreFacts Sample ImportExamples.

(** A toilet at 52.123456789 N, 13.405 E: nine decimals of latitude. *)
Definition nine_decimals : Facility := toilet_at (52123456789 # 1000000000) (13405 # 1000).

Lemma five_rows_ids_unique : List.NoDup (map id (facilities five_rows)).
Proof.
  simpl. repeat (constructor; [simpl; intuition discriminate|]). constructor.
Defined.


(** X7, instance: a sixth facility stored next to the five of [five_rows]. *)
Lemma createFacility_keeps_ids_unique_witness :
  List.NoDup
    (map id (facilities (fst (createFacility counting_ids standing_clock nine_decimals
                                five_rows)))).
Proof.
  apply (createFacility_keeps_ids_unique counting_ids standing_clock nine_decimals
           five_rows five_rows_ids_unique).
Defined.

(** X8, instance: the nearest result of the default search around Berlin
    centre over [five_rows]. *)
Lemma search_results_are_found_by_id_witness :
  getFacilityById five_rows 11 = Some (toilet_row 11 berlin (Some true) None).
Proof.
  eapply (search_results_are_found_by_id planar_distance five_rows around_berlin _
            (select planar_distance around_berlin (toilet_row 11 berlin (Some true) None))
            five_rows_ids_unique).
  - vm_compute. reflexivity.
  - left. reflexivity.
Defined.



End StoreExamples.

(* ================================================================== *)
(** * Further properties of the nearby search and of its entry point *)
(* ================================================================== *)

Module PagingFacts.
Import Schema Store SearchFacts.

(** The search [p] asked for the window of [lim] rows from row [off] on. *)
Definition window (p : Params.t) (lim off : Z) : Params.t :=
  {| Params.lat := Params.lat p; Params.lng := Params.lng p;
     Params.radius := Params.radius p;
     Params.facilityTypes := Params.facilityTypes p;
     Params.wheelchairAccessible := Params.wheelchairAccessible p;
     Params.limit := Some (JS.Num (inject_Z lim));
     Params.offset := Some (JS.Num (inject_Z off)) |}.

(** A parameter the database accepts as a [bigint] is an integer in range. *)
Lemma bigint_inv (x : JS.number) (z : Z) :
  bigint x = inr z ->
  - 2 ^ 63 <= z < 2 ^ 63 /\ exists q, x = JS.Num q /\ (q == inject_Z z)%Q.
Proof.
  destruct x as [| |q]; try discriminate. unfold bigint.
  destruct (Pos.eqb_spec (Qden (Qred q)) 1) as [Hden|]; [|discriminate].
  destruct ((- 2 ^ 63 <=? Qnum (Qred q)) && (Qnum (Qred q) <? 2 ^ 63)) eqn:Hrange;
    [|discriminate].
  apply andb_true_iff in Hrange. destruct Hrange as [Hlo Hhi].
  apply Z.leb_le in Hlo. apply Z.ltb_lt in Hhi.
  intros [= <-]. split; [lia|]. exists q. split; [reflexivity|].
  rewrite <- (Qred_correct q) at 1.
  destruct (Qred q) as [n d]. cbn [Qnum Qden] in *. subst d. reflexivity.
Qed.

Lemma bigint_requests (o : option JS.number) (dflt z : Z) :
  bigint (default (JS.Num (inject_Z dflt)) o) = inr z ->
  requests o dflt z /\ - 2 ^ 63 <= z < 2 ^ 63.
Proof.
  intros H. apply bigint_inv in H. destruct H as (Hz & q & Hq & Heq).
  split; [|exact Hz]. destruct o as [x|]; simpl in *.
  - subst x. exact Heq.
  - injection Hq as <-. unfold Qeq in Heq. simpl in Heq. lia.
Qed.

Lemma split_on_not_nil (sep : ascii) (s : string) : JS.split_on sep s <> [].
Proof.
  induction s as [|c s IH]; simpl; [discriminate|].
  destruct (Ascii.eqb c sep); [discriminate|].
  destruct (JS.split_on sep s); discriminate.
Qed.

Section Paging.

Variable ST_Distance : Point -> Point -> Q.

Local Abbreviation matching := (Store.matching ST_Distance).
Local Abbreviation searchNearbyFacilities := (Store.searchNearbyFacilities ST_Distance).

Lemma search_window (db : DB) (p : Params.t) (lim off : Z) :
  0 <= lim < 2 ^ 63 -> 0 <= off < 2 ^ 63 ->
  searchNearbyFacilities db (window p lim off) =
    inr (take (Z.to_nat lim) (drop (Z.to_nat off) (matching db p))).
Proof.
  intros Hlim Hoff.
  apply (search_returns_page ST_Distance db (window p lim off) lim off);
    simpl; try reflexivity; assumption.
Qed.


(** X13: the search fails exactly on a bad window.  It returns a page if and
    only if the limit and the offset it is given (20 and 0 when they are
    absent) are both integers from 0 to 2^63 - 1; with a negative, a
    fractional, an infinite or a NaN limit or offset the query throws. *)
Theorem search_succeeds_iff_the_window_is_valid (db : DB) (p : Params.t) :
  (exists page, searchNearbyFacilities db p = inr page) <->
  (exists lim off,
     requests (Params.limit p) 20 lim /\ 0 <= lim < 2 ^ 63 /\
     requests (Params.offset p) 0 off /\ 0 <= off < 2 ^ 63).
Proof.
  split.
  - intros [page H]. unfold Store.searchNearbyFacilities, bind, guard in H.
    change (JS.Num 20) with (JS.Num (inject_Z 20)) in H.
    change (JS.Num 0) with (JS.Num (inject_Z 0)) in H.
    destruct (bigint (default (JS.Num (inject_Z 20)) (Params.limit p))) as [|lim] eqn:Hl;
      [discriminate|].
    destruct (bigint (default (JS.Num (inject_Z 0)) (Params.offset p))) as [|off] eqn:Ho;
      [discriminate|].
    destruct (Z.leb_spec 0 off); [|discriminate].
    destruct (Z.leb_spec 0 lim); [|discriminate].
    apply bigint_requests in Hl, Ho. exists lim, off. intuition lia.
  - intros (lim & off & Hl & Hlim & Ho & Hoff). eexists.
    apply (search_returns_page ST_Distance db p lim off); assumption.
Qed.

(** What the entry point makes of the [types] parameter. *)
Lemma search_params_types (q : Query.t) (p : Params.t) :
  Routes.search_params q = inr p ->
  Params.facilityTypes p = Routes.if_given (Query.types q) (JS.split_on ",").
Proof.
  unfold Routes.search_params. intros H.
  repeat match type of H with
         | (if ?c then _ else _) = _ => destruct c; [discriminate|]
         end.
  injection H as <-. reflexivity.
Qed.

(** X14: when the request carries a non-empty [types] parameter, every
    facility in a successful reply has one of the types listed in it
    (the pieces between its commas, taken as they are); a facility without a
    type is never returned.  The [count] of the reply is the number of
    facilities in it. *)
Theorem type_filter_returns_only_the_listed_types (db : DB) (q : Query.t) (s : string)
    (fs : list FacilityWithDistance) (n : nat) (loc : Location) (rad : JS.number) :
  Query.types q = Some s -> s <> "" ->
  Routes.nearby ST_Distance db q = Routes.Success fs n loc rad ->
  n = length fs /\
  List.Forall
    (fun x => exists t, facility_type_id (row x) = Some t /\ In t (JS.split_on "," s)) fs.
Proof.
  intros Hq Hs H. unfold Routes.nearby in H.
  destruct (Routes.search_params q) as [reply|p] eqn:Hp.
  - unfold Routes.search_params in Hp.
    repeat match type of Hp with
           | (if ?c then _ else _) = _ => destruct c; [injection Hp as <-; discriminate|]
           end.
    discriminate.
  - destruct (searchNearbyFacilities db p) as [e|page] eqn:Hsearch; [discriminate|].
    injection H as <- <- _ _. split; [reflexivity|].
    apply List.Forall_forall. intros x Hx.
    destruct (page_In ST_Distance db p page x Hsearch Hx) as (_ & (_ & _ & Ht & _) & _).
    rewrite (search_params_types q p Hp), Hq in Ht.
    unfold Routes.if_given in Ht.
    assert (Htruthy : JS.truthy (Some s) = true).
    { simpl. apply negb_true_iff, String.eqb_neq, Hs. }
    rewrite Htruthy in Ht.
    change (default "" (Some s)) with s in Ht.
    pose proof (split_on_not_nil "," s) as Hne.
    destruct (JS.split_on "," s) as [|t ts]; [congruence|]. exact Ht.
Qed.

(** X15: the radius a successful reply reports is the radius the search was
    run with, except in two cases: a [radius] parameter that is 0, and one
    that does not begin with a number.  The search is then run with radius
    0 (and returns only facilities at distance 0), or with NaN, while the
    reply reports 1000. *)
Theorem reply_reports_the_radius_searched (db : DB) (q : Query.t) (p : Params.t)
    (fs : list FacilityWithDistance) (n : nat) (loc : Location) (rad : JS.number) :
  Routes.search_params q = inr p ->
  Routes.nearby ST_Distance db q = Routes.Success fs n loc rad ->
  rad = effective_radius p \/
  (rad = JS.Num 1000 /\
   (effective_radius p = JS.NaN \/
    exists r, effective_radius p = JS.Num r /\ (r == 0)%Q /\
              List.Forall (fun x => (distance x <= 0)%Q) fs)).
Proof.
  intros Hp H. unfold Routes.nearby in H. rewrite Hp in H.
  destruct (searchNearbyFacilities db p) as [e|page] eqn:Hs; [discriminate|].
  injection H as <- _ _ <-.
  unfold effective_radius, JS.or_number.
  destruct (Params.radius p) as [[| |r]|] eqn:Hr; cbn [default]; auto.
  - destruct (Qeq_bool r 0) eqn:H0; [|auto].
    right. split; [reflexivity|]. right. exists r. split; [reflexivity|].
    apply Qeq_bool_iff in H0. split; [exact H0|].
    apply List.Forall_forall. intros x Hx.
    destruct (page_In ST_Distance db p page x Hs Hx) as (_ & (Hw & _) & Hsel).
    unfold effective_radius in Hw. rewrite Hr in Hw. simpl in Hw.
    rewrite Hsel. simpl. rewrite <- H0. exact Hw.
Qed.

End Paging.

(** X16: the entry point passes on to the search only centres inside the
    valid range.  Whenever it builds search parameters, the latitude is
    within [-90, 90] and the longitude within [-180, 180], boundary
    included, and they are the finite numbers [parseFloat] read from [lat]
    and [lng]. *)
Theorem search_params_centre_is_in_range (q : Query.t) (p : Params.t) :
  Routes.search_params q = inr p ->
  (-90 <= Params.lat p)%Q /\ (Params.lat p <= 90)%Q /\
  (-180 <= Params.lng p)%Q /\ (Params.lng p <= 180)%Q /\
  JS.parseFloat (default "" (Query.lat q)) = JS.Num (Params.lat p) /\
  JS.parseFloat (default "" (Query.lng q)) = JS.Num (Params.lng p).
Proof.
  unfold Routes.search_params.
  destruct (negb (JS.truthy (Query.lat q)) || negb (JS.truthy (Query.lng q)));
    [discriminate|].
  destruct (JS.parseFloat (default "" (Query.lat q))) as [|[]|x];
    destruct (JS.parseFloat (default "" (Query.lng q))) as [|[]|y];
    cbn [JS.isNaN JS.lt orb]; try discriminate.
  - destruct (Qle_bool (-90) x) eqn:H1; [|discriminate].
    destruct (Qle_bool x 90) eqn:H2; discriminate.
  - destruct (Qle_bool (-90) x) eqn:H1; [|discriminate].
    destruct (Qle_bool x 90) eqn:H2; discriminate.
  - destruct (Qle_bool (-90) x) eqn:H1; [|discriminate].
    destruct (Qle_bool x 90) eqn:H2; [|discriminate].
    destruct (Qle_bool (-180) y) eqn:H3; [|discriminate].
    destruct (Qle_bool y 180) eqn:H4; [|discriminate].
    cbn [negb orb]. intros [= <-]. cbn [Params.lat Params.lng].
    apply Qle_bool_iff in H1, H2, H3, H4. auto 10.
Qed.

End PagingFacts.

Module PagingExamples.
Import Schema Store SearchFacts PagingFacts Sample.


(** [GET /facilities/nearby?lat=52.52&lng=13.405&types=toilet,parking]. *)
Definition toilets_and_parking : Query.t :=
  {| Query.lat := Some "52.52"; Query.lng := Some "13.405";
     Query.radius := None; Query.types := Some "toilet,parking";
     Query.wheelchairAccessible := None;
     Query.limit := None; Query.offset := None |}.

(** X14, instance: the three live toilets at Berlin centre. *)
Lemma type_filter_returns_only_the_listed_types_witness :
  exists fs n loc rad,
    Routes.nearby planar_distance five_rows toilets_and_parking
      = Routes.Success fs n loc rad /\
    n = 3%nat /\
    List.Forall
      (fun x => exists t, facility_type_id (row x) = Some t /\ In t ["toilet"; "parking"]) fs.
Proof.
  do 4 eexists. split; [vm_compute; reflexivity|].
  destruct (type_filter_returns_only_the_listed_types planar_distance five_rows
              toilets_and_parking "toilet,parking" _ _ _ _ eq_refl ltac:(discriminate)
              ltac:(vm_compute; reflexivity)) as [Hn Hfs].
  split; [exact Hn | exact Hfs].
Defined.

(** X16, instance: the request above. *)
Lemma search_params_centre_is_in_range_witness :
  exists p,
    Routes.search_params toilets_and_parking = inr p /\
    (-90 <= Params.lat p)%Q /\ (Params.lat p <= 90)%Q /\
    (-180 <= Params.lng p)%Q /\ (Params.lng p <= 180)%Q.
Proof.
  eexists. split; [vm_compute; reflexivity|].
  destruct (search_params_centre_is_in_range toilets_and_parking _
              ltac:(vm_compute; reflexivity)) as (H1 & H2 & H3 & H4 & _).
  auto.
Defined.

(** [GET /facilities/nearby?lat=52.52&lng=13.405&radius=0]. *)
Definition radius_zero : Query.t :=
  {| Query.lat := Some "52.52"; Query.lng := Some "13.405";
     Query.radius := Some "0"; Query.types := None;
     Query.wheelchairAccessible := None;
     Query.limit := None; Query.offset := None |}.

(** X15, instance: with [radius=0] the three live facilities at the very
    centre are returned, and the reply reports radius 1000. *)
Lemma reply_reports_the_radius_searched_witness :
  exists p fs n loc,
    Routes.search_params radius_zero = inr p /\
    Routes.nearby planar_distance five_rows radius_zero
      = Routes.Success fs n loc (JS.Num 1000) /\
    n = 3%nat /\
    effective_radius p = JS.Num 0 /\
    (JS.Num 1000 = effective_radius p \/
     (JS.Num 1000 = JS.Num 1000 /\
      (effective_radius p = JS.NaN \/
       exists r, effective_radius p = JS.Num r /\ (r == 0)%Q /\
                 List.Forall (fun x => (distance x <= 0)%Q) fs))).
Proof.
  do 4 eexists. split; [vm_compute; reflexivity|].
  split; [vm_compute; reflexivity|]. split; [reflexivity|]. split; [reflexivity|].
  eapply (reply_reports_the_radius_searched planar_distance five_rows radius_zero);
    vm_compute; reflexivity.
Defined.

End PagingExamples.

(* ================================================================== *)
(** * Further properties of the rate gate and of the import loop *)
(* ================================================================== *)

Module IngestFacts.
Import Schema Normalizer Store Ingest CreateFacts GateFacts ImportFacts.

(** ** The gate under any schedule *)

(** The number of callers that enter [rateLimitedRequest] in a schedule. *)
Fixpoint calls (schedule : list event) : nat :=
  match schedule with
  | [] => 0
  | Call :: rest => S (calls rest)
  | _ :: rest => calls rest
  end.

Lemma step_conserves (w : World) (e : event) :
  (length (posts (step w e)) + length (timers (step w e)))%nat =
  (length (posts w) + length (timers w) + calls [e])%nat.
Proof.
  destruct e as [ms| |k]; simpl.
  - lia.
  - destruct (_ <? _); simpl; rewrite ?length_app; simpl; lia.
  - destruct (timers w !! k) as [due|] eqn:Hk; [|lia].
    destruct (due <=? now w); [|lia]. simpl.
    pose proof (length_delete (timers w) k (ex_intro _ due Hk)) as Hlen.
    apply lookup_lt_Some in Hk.
    change (length (delete k (timers w))) with (length (base.delete k (timers w))).
    lia.
Qed.

(** X17: the gate neither drops nor duplicates a request, however the calls
    and the timers interleave: after any schedule, the requests sent and the
    calls still suspended number those before plus one per caller that
    entered. *)
Theorem gate_neither_drops_nor_duplicates (w : World) (schedule : list event) :
  (length (posts (run w schedule)) + length (timers (run w schedule)))%nat =
  (length (posts w) + length (timers w) + calls schedule)%nat.
Proof.
  revert w. induction schedule as [|e rest IH]; intros w; simpl run.
  - simpl. lia.
  - unfold run in *. simpl fold_left. rewrite IH, step_conserves.
    destruct e; simpl; lia.
Qed.

Section Runs.

Variable axios_post : nat -> string -> OverpassQuery -> Error + OSMResponse.
Variable uuid_generate_v4 : nat -> uuid.
Variable CURRENT_TIMESTAMP : nat -> timestamp.

Local Abbreviation createFacility := (Store.createFacility uuid_generate_v4 CURRENT_TIMESTAMP).
Local Abbreviation rateLimitedRequest := (Ingest.rateLimitedRequest axios_post).
Local Abbreviation fetchOSMFacilities := (Ingest.fetchOSMFacilities axios_post).
Local Abbreviation import_element :=
  (Ingest.import_element uuid_generate_v4 CURRENT_TIMESTAMP).
Local Abbreviation import_elements :=
  (Ingest.import_elements uuid_generate_v4 CURRENT_TIMESTAMP).
Local Abbreviation importOSMFacilities :=
  (Ingest.importOSMFacilities axios_post uuid_generate_v4 CURRENT_TIMESTAMP).
Local Abbreviation syncOSMDataForArea :=
  (Ingest.syncOSMDataForArea axios_post uuid_generate_v4 CURRENT_TIMESTAMP).

(** X18: a caller that is alone in the gate, and whose timer fires when it
    is due, has its request sent at the later of the current time and
    [lastRequestTime + rateLimitMs]: at once when the interval has passed,
    and otherwise exactly when it has.  [lastRequestTime] is then the time
    of that request, and the calls suspended in the gate are untouched. *)
Theorem single_caller_is_sent_when_the_interval_has_passed (url : string)
    (data : OverpassQuery) (w : World) :
  let t := Z.max (now w) (lastRequestTime w + Config.rateLimitMs) in
  rateLimitedRequest url data w =
    ({| now := t; lastRequestTime := t; timers := timers w; posts := t :: posts w |},
     axios_post (length (posts w)) url data).
Proof.
  cbv zeta. unfold Ingest.rateLimitedRequest. cbv zeta.
  destruct (Z.ltb_spec (now w - lastRequestTime w) Config.rateLimitMs) as [Hlt|Hge].
  - rewrite (step_call_waits w Hlt).
    set (due := lastRequestTime w + Config.rateLimitMs).
    cbn [timers now]. rewrite (list_lookup_middle (timers w) [] due _ eq_refl).
    cbn [step timers now lastRequestTime posts].
    rewrite (list_lookup_middle (timers w) [] due _ eq_refl).
    assert (Hnow : now w + Z.of_nat (Z.to_nat (due - now w)) = due)
      by (rewrite Z2Nat.id; unfold due; lia).
    rewrite Hnow, Z.leb_refl. unfold post. cbn [now timers posts lastRequestTime].
    rewrite (delete_middle (timers w) [] due), app_nil_r.
    rewrite Z.max_r by (unfold due; lia). reflexivity.
  - rewrite (step_call_passes w Hge). unfold post. cbn [timers].
    rewrite (lookup_ge_None_2 (timers w)) by lia.
    rewrite Z.max_l by lia. reflexivity.
Qed.

(** ** The import loop, whatever ids the database generates *)

(** The candidates the normaliser makes of a batch: one per node. *)
Definition candidates (els : list OSMElement) : list Facility :=
  omap parseOSMElement els.

Local Open Scope list_scope.

Lemma import_element_accounts (s : Loop) (e : OSMElement) :
  let s' := import_element s e in
  let k := length (candidates [e]) in
  (importedCount s' + failures (console s') = importedCount s + failures (console s) + k)%nat /\
  (failures (console s) <= failures (console s'))%nat /\
  (exists added,
     facilities (db s') = facilities (db s) ++ added /\
     (length added + importedCount s = importedCount s')%nat) /\
  statements (db s') = (statements (db s) + k)%nat.
Proof.
  cbv zeta. unfold Ingest.import_element, candidates. cbn [omap list_omap].
  destruct (parseOSMElement e) as [f|]; cbn [length].
  - unfold Store.createFacility.
    destruct (Store.insert uuid_generate_v4 CURRENT_TIMESTAMP (db s) f) as [err|r];
      cbn [db importedCount console facilities statements]; rewrite failures_app; simpl.
    + split; [lia|]. split; [lia|]. split; [|lia]. exists []. rewrite app_nil_r.
      split; [reflexivity | simpl; lia].
    + split; [lia|]. split; [lia|]. split; [|lia]. exists [r].
      split; [reflexivity | simpl; lia].
  - split; [lia|]. split; [lia|]. split; [|lia]. exists []. rewrite app_nil_r.
    split; [reflexivity | simpl; lia].
Qed.

Lemma candidates_length (els : list OSMElement) :
  (length (candidates els) <= length els)%nat.
Proof.
  unfold candidates. induction els as [|e els IH]; [reflexivity|].
  change (omap parseOSMElement (e :: els))
    with (match parseOSMElement e with
          | Some f => f :: omap parseOSMElement els
          | None => omap parseOSMElement els
          end).
  destruct (parseOSMElement e); cbn [length]; lia.
Qed.

Lemma candidates_cons (e : OSMElement) (els : list OSMElement) :
  length (candidates (e :: els)) = (length (candidates [e]) + length (candidates els))%nat.
Proof.
  unfold candidates.
  change (omap parseOSMElement (e :: els))
    with (match parseOSMElement e with
          | Some f => f :: omap parseOSMElement els
          | None => omap parseOSMElement els
          end).
  change (omap parseOSMElement [e])
    with (match parseOSMElement e with
          | Some f => [f]
          | None => []
          end).
  destruct (parseOSMElement e); reflexivity.
Qed.

Lemma fold_import_accounts (els : list OSMElement) (s : Loop) :
  let s' := fold_left import_element els s in
  let k := length (candidates els) in
  (importedCount s' + failures (console s') = importedCount s + failures (console s) + k)%nat /\
  (failures (console s) <= failures (console s'))%nat /\
  (exists added,
     facilities (db s') = facilities (db s) ++ added /\
     (length added + importedCount s = importedCount s')%nat) /\
  statements (db s') = (statements (db s) + k)%nat.
Proof.
  cbv zeta. revert s. induction els as [|e els IH]; intros s.
  - simpl. split; [lia|]. split; [lia|]. split; [|lia]. exists []. rewrite app_nil_r.
    split; [reflexivity | simpl; lia].
  - cbn [fold_left]. rewrite candidates_cons.
    destruct (import_element_accounts s e) as (H1 & Hf & (a1 & Ha1 & Hl1) & H3).
    destruct (IH (import_element s e)) as (H1' & Hf' & (a2 & Ha2 & Hl2) & H3').
    split; [lia|]. split; [lia|]. split; [|lia].
    exists (a1 ++ a2). rewrite Ha2, Ha1, <- app_assoc, length_app.
    split; [reflexivity | lia].
Qed.


(** The loop appends as many rows as it counts, at most one per element. *)
Lemma import_elements_appends (els : list OSMElement) (d : DB) (lines : list LogLine) :
  let s := import_elements els d lines in
  (exists added,
     facilities (db s) = facilities d ++ added /\ length added = importedCount s) /\
  (importedCount s <= length els)%nat.
Proof.
  cbv zeta. unfold Ingest.import_elements.
  destruct (fold_import_accounts els (mkLoop d 0 lines))
    as (H1 & Hf & (added & Ha & Hl) & _).
  pose proof (candidates_length els) as Hle.
  cbn [db importedCount console] in *.
  split; [exists added; split; [exact Ha | lia] | lia].
Qed.

(** ** What the loop writes *)

(** A row as the import of an OSM node leaves it: live, unverified, of a
    type of the catalog, attributed to OpenStreetMap, keyed by the node, and
    with every accessibility flag set to true or false. *)
Definition osm_row (r : FacilityRow) : Prop :=
  deleted_at r = None /\
  row_verified r = Some false /\
  data_sources r = ["openstreetmap"] /\
  (exists i : Z, external_ids r = {[ "osm" := ("node/" ++ pretty i)%string ]}) /\
  (exists t, facility_type_id r = Some t /\ in_catalog t) /\
  wheelchair_accessible r <> None /\ has_ramp r <> None /\ has_elevator r <> None /\
  has_accessible_toilet r <> None /\ has_accessible_parking r <> None /\
  has_automatic_door r <> None.

Lemma import_element_writes (s : Loop) (e : OSMElement) :
  (List.NoDup (map id (facilities (db s))) ->
   List.NoDup (map id (facilities (db (import_element s e))))) /\
  exists added,
    facilities (db (import_element s e)) = facilities (db s) ++ added /\
    List.Forall osm_row added.
Proof.
  unfold Ingest.import_element.
  destruct (parseOSMElement e) as [f|] eqn:Hf;
    [|split; [auto | exists []; rewrite app_nil_r; split; [reflexivity | constructor]]].
  assert (Hnd : List.NoDup (map id (facilities (db s))) ->
                List.NoDup (map id (facilities (fst (createFacility f (db s)))))).
  { intros H.
    destruct (StoreFacts.createFacility_appends uuid_generate_v4 CURRENT_TIMESTAMP
                f (db s)) as (added & Ha & Hlen & Hfresh).
    rewrite Ha. apply StoreFacts.NoDup_ids_append; [exact H | exact Hlen |].
    intros r Hr x Hx. exact (Hfresh r Hr x Hx). }
  destruct (createFacility f (db s)) as [db' [err|i]] eqn:Hc; cbn [db fst] in *.
  - split; [exact Hnd|].
    rewrite (StoreFacts.createFacility_failed _ _ _ _ _ _ Hc).
    exists []. rewrite app_nil_r. split; [reflexivity | constructor].
  - split; [exact Hnd|].
    destruct (StoreFacts.createFacility_inv _ _ _ _ _ _ Hc) as (r & Hr & -> & _ & _).
    exists [r]. split; [reflexivity|]. constructor; [|constructor].
    destruct (StoreFacts.createFacility_type _ _ _ _ _ _ r Hc Hr) as (t & Ht & Hcat).
    destruct (StoreFacts.new_row_columns _ _ _ _ _ Hr)
      as (H1 & H2 & H3 & H4 & H5 & H6 & Hv & Hs & Hx & Hdel).
    destruct e as [i' la lo tags|]; [|discriminate]. injection Hf as <-.
    cbn [accessibility extract_accessibility wheelchairAccessible hasRamp hasElevator
         hasAccessibleToilet hasAccessibleParking hasAutomaticDoor verified dataSources
         externalIds] in *.
    unfold osm_row. rewrite H1, H2, H3, H4, H5, H6, Hv, Hs, Hx, Hdel.
    repeat split; eauto; discriminate.
Qed.

Lemma fold_import_writes (els : list OSMElement) (s : Loop) :
  (List.NoDup (map id (facilities (db s))) ->
   List.NoDup (map id (facilities (db (fold_left import_element els s))))) /\
  exists added,
    facilities (db (fold_left import_element els s)) = facilities (db s) ++ added /\
    List.Forall osm_row added.
Proof.
  revert s. induction els as [|e els IH]; intros s; cbn [fold_left].
  - split; [auto|]. exists []. rewrite app_nil_r. split; [reflexivity | constructor].
  - destruct (import_element_writes s e) as (Hnd & a1 & Ha1 & Hf1).
    destruct (IH (import_element s e)) as (Hnd' & a2 & Ha2 & Hf2).
    split; [auto|]. exists (a1 ++ a2). rewrite Ha2, Ha1, <- app_assoc.
    split; [reflexivity | apply List.Forall_app; auto].
Qed.

(** X20: an import keeps the primary key unique.  If no two rows of the
    store share an id before [importOSMFacilities] or [syncOSMDataForArea]
    runs, none do after it, whatever the provider answers and whatever ids
    the database generates: an id that is already taken makes that one
    INSERT fail and changes nothing. *)
Theorem import_keeps_ids_unique (lat lng : JS.number) (radius : option JS.number)
    (w : World) (d : DB) :
  List.NoDup (map id (facilities d)) ->
  List.NoDup
    (map id (facilities (db (snd (fst (importOSMFacilities lat lng radius w d)))))) /\
  List.NoDup
    (map id (facilities (snd (fst (fst (syncOSMDataForArea lat lng radius w d)))))).
Proof.
  intros Hnd. split.
  - unfold Ingest.importOSMFacilities.
    destruct (fetchOSMFacilities lat lng (default (JS.Num 1000) radius) w)
      as [[w' lines] [error|osmData]]; cbn [fst snd db]; [exact Hnd|].
    apply (fold_import_writes (elements osmData) (mkLoop d 0 lines)), Hnd.
  - unfold Ingest.syncOSMDataForArea.
    destruct (fetchOSMFacilities lat lng (default (JS.Num 5000) radius) w)
      as [[w' lines] [error|osmData]]; cbn [fst snd]; [exact Hnd|].
    apply (fold_import_writes (elements osmData) (mkLoop d 0 [])), Hnd.
Qed.

(** X21: every row an import adds to the store is live, unverified,
    attributed to OpenStreetMap, keyed by [osm: node/<id>], of one of the six
    types of the catalog, and has each of its six accessibility flags set to
    true or false, never left unknown.  This holds of [importOSMFacilities]
    and of [syncOSMDataForArea], whether they return or throw. *)
Theorem import_writes_complete_osm_rows (lat lng : JS.number)
    (radius : option JS.number) (w : World) (d : DB) :
  (exists added,
     facilities (db (snd (fst (importOSMFacilities lat lng radius w d))))
       = facilities d ++ added /\
     List.Forall osm_row added) /\
  (exists added,
     facilities (snd (fst (fst (syncOSMDataForArea lat lng radius w d))))
       = facilities d ++ added /\
     List.Forall osm_row added).
Proof.
  assert (Hnone : exists added, facilities d = facilities d ++ added /\
                                List.Forall osm_row added).
  { exists []. rewrite app_nil_r. split; [reflexivity | constructor]. }
  split.
  - unfold Ingest.importOSMFacilities.
    destruct (fetchOSMFacilities lat lng (default (JS.Num 1000) radius) w)
      as [[w' lines] [error|osmData]]; cbn [fst snd db]; [exact Hnone|].
    apply (fold_import_writes (elements osmData) (mkLoop d 0 lines)).
  - unfold Ingest.syncOSMDataForArea.
    destruct (fetchOSMFacilities lat lng (default (JS.Num 5000) radius) w)
      as [[w' lines] [error|osmData]]; cbn [fst snd]; [exact Hnone|].
    apply (fold_import_writes (elements osmData) (mkLoop d 0 [])).
Qed.


End Runs.

End IngestFacts.


Module IngestExamples.
Import Schema Store Ingest CreateFacts GateFacts ImportFacts IngestFacts Sample ImportExamples.

(** X20, instance: [batch] imported into [five_rows], with ids counted from
    the number of statements executed. *)
Lemma import_keeps_ids_unique_witness :
  List.NoDup
    (map id (facilities (db (snd (fst (import_berlin batch noon five_rows)))))) /\
  length (facilities (db (snd (fst (import_berlin batch noon five_rows))))) = 9%nat.
Proof.
  split; [|vm_compute; reflexivity].
  apply (import_keeps_ids_unique (answers batch) counting_ids standing_clock
           (JS.Num (5252 # 100)) (JS.Num (13405 # 1000)) (Some (JS.Num 1000))
           noon five_rows StoreExamples.five_rows_ids_unique).
Defined.

End IngestExamples.

(* ================================================================== *)
(** * Properties of the [/osm] entry points *)
(* ================================================================== *)

Module OsmRouteFacts.
Import Schema Store Ingest CreateFacts GateFacts ImportFacts IngestFacts OsmRoutes.

(** [lat] or [lng] is missing from the query string, or empty. *)
Definition missing (q : ImportQuery.t) : Prop :=
  JS.truthy (ImportQuery.lat q) = false \/ JS.truthy (ImportQuery.lng q) = false.

(** [lat] or [lng] does not begin with a number. *)
Definition not_numeric (q : ImportQuery.t) : Prop :=
  JS.parseFloat (default "" (ImportQuery.lat q)) = JS.NaN \/
  JS.parseFloat (default "" (ImportQuery.lng q)) = JS.NaN.

Definition rejected (reply : Reply) : Prop := exists e m, reply = BadRequest e m.

Lemma missing_spec (q : ImportQuery.t) :
  negb (JS.truthy (ImportQuery.lat q)) || negb (JS.truthy (ImportQuery.lng q)) = true
  <-> missing q.
Proof.
  unfold missing. rewrite orb_true_iff, !negb_true_iff. reflexivity.
Qed.

Lemma isNaN_spec (x : JS.number) : JS.isNaN x = true <-> x = JS.NaN.
Proof. destruct x; simpl; split; congruence. Qed.

Lemma not_numeric_spec (q : ImportQuery.t) :
  JS.isNaN (JS.parseFloat (default "" (ImportQuery.lat q)))
  || JS.isNaN (JS.parseFloat (default "" (ImportQuery.lng q))) = true
  <-> not_numeric q.
Proof.
  unfold not_numeric. rewrite orb_true_iff, !isNaN_spec. reflexivity.
Qed.

Section Replies.

Variable axios_post : nat -> string -> OverpassQuery -> Error + OSMResponse.
Variable uuid_generate_v4 : nat -> uuid.
Variable CURRENT_TIMESTAMP : nat -> timestamp.

Local Abbreviation answer := (ImportFacts.answer axios_post).
Local Abbreviation fetchOSMFacilities := (Ingest.fetchOSMFacilities axios_post).
Local Abbreviation import_elements :=
  (Ingest.import_elements uuid_generate_v4 CURRENT_TIMESTAMP).
Local Abbreviation importOSMFacilities :=
  (Ingest.importOSMFacilities axios_post uuid_generate_v4 CURRENT_TIMESTAMP).
Local Abbreviation syncOSMDataForArea :=
  (Ingest.syncOSMDataForArea axios_post uuid_generate_v4 CURRENT_TIMESTAMP).
Local Abbreviation post_import :=
  (OsmRoutes.post_import axios_post uuid_generate_v4 CURRENT_TIMESTAMP).
Local Abbreviation post_sync :=
  (OsmRoutes.post_sync axios_post uuid_generate_v4 CURRENT_TIMESTAMP).

Local Open Scope list_scope.

(** A run with an explicit radius, by the provider's answer. *)
Lemma importOSMFacilities_cases (lat lng radius : JS.number) (w : World) (d : DB) :
  exists w',
    length (posts w') = S (length (posts w)) /\
    importOSMFacilities lat lng (Some radius) w d =
      match answer lat lng radius w with
      | inl error =>
          (w',
           mkLoop d 0 [fetching_data lat lng radius; error_fetching (message error)],
           inl (mkError ("Failed to fetch OSM data: " ++ message error)))
      | inr osmData =>
          let s := import_elements (elements osmData) d [fetching_data lat lng radius] in
          (w',
           {| db := db s; importedCount := importedCount s;
              console := console s ++ [imported_total (importedCount s)] |},
           inr (importedCount s))
      end.
Proof.
  destruct (fetchOSMFacilities_spec axios_post lat lng radius w) as (t & Hf).
  cbv zeta in Hf. eexists. split; [|unfold Ingest.importOSMFacilities].
  2: { change (default (JS.Num 1000) (Some radius)) with radius. rewrite Hf.
       destruct (answer lat lng radius w); reflexivity. }
  reflexivity.
Qed.

Lemma syncOSMDataForArea_cases (lat lng radius : JS.number) (w : World) (d : DB) :
  exists w',
    length (posts w') = S (length (posts w)) /\
    syncOSMDataForArea lat lng (Some radius) w d =
      match answer lat lng radius w with
      | inl error =>
          (w', d,
           [syncing_area lat lng; fetching_data lat lng radius;
            error_fetching (message error)],
           inl (mkError ("Failed to fetch OSM data: " ++ message error)))
      | inr osmData =>
          let s := import_elements (elements osmData) d [] in
          (w', db s, [syncing_area lat lng; fetching_data lat lng radius],
           inr (length (elements osmData), importedCount s))
      end.
Proof.
  destruct (fetchOSMFacilities_spec axios_post lat lng radius w) as (t & Hf).
  cbv zeta in Hf. eexists. split; [|unfold Ingest.syncOSMDataForArea].
  2: { change (default (JS.Num 5000) (Some radius)) with radius. rewrite Hf.
       destruct (answer lat lng radius w); reflexivity. }
  reflexivity.
Qed.

(** X23: [POST /osm/import] rejects a request exactly when [lat] or [lng] is
    missing, empty, or does not begin with a number; it makes no range
    check, so any numeric latitude and longitude go through.  A rejected
    request sends nothing to the provider and leaves the store as it was;
    any other request sends exactly one request to the provider. *)
Theorem import_route_rejects_only_missing_or_non_numeric (q : ImportQuery.t)
    (w : World) (d : DB) :
  let '(w', d', lines, reply) := post_import q w d in
  (rejected reply <-> missing q \/ not_numeric q) /\
  (rejected reply -> w' = w /\ d' = d /\ lines = []) /\
  (~ rejected reply -> length (posts w') = S (length (posts w))).
Proof.
  unfold OsmRoutes.post_import.
  destruct (negb (JS.truthy (ImportQuery.lat q)) || negb (JS.truthy (ImportQuery.lng q)))
    eqn:Hm.
  - apply missing_spec in Hm. unfold rejected.
    split; [split; eauto|]. split; [auto|]. intros H. exfalso. eauto.
  - cbv zeta.
    destruct (JS.isNaN (JS.parseFloat (default "" (ImportQuery.lat q)))
              || JS.isNaN (JS.parseFloat (default "" (ImportQuery.lng q)))) eqn:Hn.
    + apply not_numeric_spec in Hn. unfold rejected.
      split; [split; eauto|]. split; [auto|]. intros H. exfalso. eauto.
    + assert (Hok : ~ (missing q \/ not_numeric q)).
      { rewrite <- missing_spec, <- not_numeric_spec, Hm, Hn. intros [?|?]; discriminate. }
      destruct (importOSMFacilities_cases
                  (JS.parseFloat (default "" (ImportQuery.lat q)))
                  (JS.parseFloat (default "" (ImportQuery.lng q)))
                  (radius_or (ImportQuery.radius q) 1000) w d) as (w' & Hposts & ->).
      destruct (answer _ _ _ w) as [error|osmData]; cbv zeta; unfold rejected;
        (split; [split; [intros (e & m & H); discriminate H | tauto]|]);
        (split; [intros (e & m & H); discriminate H | intros _; exact Hposts]).
Qed.



End Replies.

End OsmRouteFacts.

Module OsmRouteExamples.
Import Schema Store Ingest CreateFacts GateFacts ImportFacts IngestFacts OsmRoutes.
Import OsmRouteFacts ImportExamples.

(** [POST /osm/import?lat=52.52&lng=13.405]. *)
Definition import_around_berlin : ImportQuery.t :=
  {| ImportQuery.lat := Some "52.52"; ImportQuery.lng := Some "13.405";
     ImportQuery.radius := None |}.


End OsmRouteExamples.
